(** * openapi-cli: a command-line interface generated from an OpenAPI document

    A shallow embedding of [openapi-cli.py] and the properties its
    specification states about it.

    The program reads a JSON document, walks it with Python's dynamic
    dictionary operations and hands option declarations and callbacks to the
    click library; requests go out through httpx.  The embedding keeps that
    shape: JSON data is the untyped [value] below, every Python operation that
    can raise returns a [result], and the two libraries appear through the
    small part of their behaviour the program relies on. *)

From Stdlib Require Import String Ascii ZArith List Lia DecimalString.
From stdpp Require Import gmap strings list fin_maps.

Local Open Scope string_scope.
Local Open Scope Z_scope.

(** ** Python values

    What [response.json()] can return, and what click binds to an option.
    JSON numbers are integers here; floating point is outside the model.  A
    Python [dict] keeps insertion order, so it is an association list whose
    first binding of a key is the one seen. *)

#[warnings="-register-all"]
Inductive value : Type :=
| VNone
| VBool (b : bool)
| VInt (n : Z)
| VStr (s : string)
| VList (l : list value)
| VDict (d : list (string * value)).

(** ** Exceptions

    [TypeError (Some msg)] is a [TypeError] the program raises itself, with its
    message; [TypeError None] and [AttributeError] are raised by the
    interpreter (indexing a non-dict, [+] on a non-string, [.get] on a
    non-dict, ...), their message is not modelled.  [MissingParameter] and
    [UsageError] are click's, [TransportError] and [HTTPStatusError] are
    httpx's. *)

Inductive exn : Type :=
| KeyError (key : string)
| TypeError (msg : option string)
| AttributeError
| MissingParameter (param : string)
| UsageError
| TransportError
| HTTPStatusError (status : Z)
| JSONDecodeError.

Inductive result (A : Type) : Type :=
| Ok (a : A)
| Raise (e : exn).
Arguments Ok {A} a.
Arguments Raise {A} e.

(** Sequencing: the first exception raised ends the computation.  The
    notation [x ← r; k] is stdpp's. *)
#[global] Instance result_bind : MBind result := fun A B k r =>
  match r with
  | Ok a => k a
  | Raise e => Raise e
  end.

#[global] Instance result_ret : MRet result := fun A a => Ok a.

#[global] Instance result_fmap : FMap result := fun A B f r =>
  match r with
  | Ok a => Ok (f a)
  | Raise e => Raise e
  end.

Definition raises {A} (r : result A) : Prop := exists e, r = Raise e.

(** ** Strings *)

Module Str.

Fixpoint prefixb (p s : string) : bool :=
  match p, s with
  | EmptyString, _ => true
  | String a p', String b s' => if Ascii.eqb a b then prefixb p' s' else false
  | String _ _, EmptyString => false
  end.

(** [replace_from old new s skip]: the scan of [str.replace] at a position
    where [skip] more characters belong to the occurrence just replaced. *)
Fixpoint replace_from (old new s : string) (skip : nat) : string :=
  match s with
  | EmptyString => EmptyString
  | String c s' =>
      match skip with
      | S k => replace_from old new s' k
      | O =>
          if prefixb old s
          then new ++ replace_from old new s' (Nat.pred (String.length old))
          else String c (replace_from old new s' O)
      end
  end.

(** [s.replace(old, new)] for a non-empty [old]: every occurrence, leftmost
    first, occurrences not overlapping. *)
Definition replace (old new s : string) : string := replace_from old new s O.

(** Does [sub] occur in [s]? *)
Fixpoint occurs (sub s : string) : bool :=
  prefixb sub s ||
  match s with
  | EmptyString => false
  | String _ s' => occurs sub s'
  end.

Fixpoint mem (c : ascii) (s : string) : bool :=
  match s with
  | EmptyString => false
  | String a s' => Ascii.eqb a c || mem c s'
  end.

(** No [{] and no [}] in [s]. *)
Definition brace_free (s : string) : bool :=
  negb (mem "{"%char s) && negb (mem "}"%char s).

(** [s.upper()] on ASCII letters; other characters are unchanged. *)
Definition upper_ascii (c : ascii) : ascii :=
  let n := nat_of_ascii c in
  if (Nat.leb 97 n && Nat.leb n 122)%bool then ascii_of_nat (n - 32) else c.

Fixpoint upper (s : string) : string :=
  match s with
  | EmptyString => EmptyString
  | String c s' => String (upper_ascii c) (upper s')
  end.

Fixpoint join (sep : string) (l : list string) : string :=
  match l with
  | [] => ""
  | [x] => x
  | x :: l' => x ++ sep ++ join sep l'
  end.

End Str.

(** ** [str(v)] and [repr(v)]

    Characters outside ASCII are kept as they are, which is what Python does
    with printable ones. *)

Module PyStr.

Definition dquote : ascii := ascii_of_nat 34.
Definition squote : ascii := ascii_of_nat 39.
Definition backslash : ascii := ascii_of_nat 92.

Definition hex_digit (n : nat) : ascii :=
  match n with
  | 0 => "0" | 1 => "1" | 2 => "2" | 3 => "3" | 4 => "4" | 5 => "5"
  | 6 => "6" | 7 => "7" | 8 => "8" | 9 => "9" | 10 => "a" | 11 => "b"
  | 12 => "c" | 13 => "d" | 14 => "e" | _ => "f"
  end%char%nat.

Definition escape_char (quote c : ascii) : string :=
  let n := nat_of_ascii c in
  if Ascii.eqb c quote then String backslash (String c "")
  else if Ascii.eqb c backslash then String backslash (String backslash "")
  else if Nat.eqb n 9 then String backslash "t"
  else if Nat.eqb n 10 then String backslash "n"
  else if Nat.eqb n 13 then String backslash "r"
  else if (Nat.ltb n 32 || Nat.eqb n 127)%bool
       then String backslash (String "x" (String (hex_digit (n / 16))
              (String (hex_digit (n mod 16)) "")))%nat
  else String c "".

Fixpoint escape (quote : ascii) (s : string) : string :=
  match s with
  | EmptyString => EmptyString
  | String c s' => escape_char quote c ++ escape quote s'
  end.

(** [repr] of a string: single quotes, unless the string has a single quote
    and no double quote. *)
Definition repr_str (s : string) : string :=
  let quote :=
    if (Str.mem squote s && negb (Str.mem dquote s))%bool
    then dquote else squote in
  String quote (escape quote s ++ String quote "").

Definition str_int (n : Z) : string := NilZero.string_of_int (Z.to_int n).

Fixpoint repr (v : value) : string :=
  match v with
  | VNone => "None"
  | VBool true => "True"
  | VBool false => "False"
  | VInt n => str_int n
  | VStr s => repr_str s
  | VList l => "[" ++ Str.join ", " (List.map repr l) ++ "]"
  | VDict d =>
      "{" ++ Str.join ", "
               (List.map (fun kv => repr_str (fst kv) ++ ": " ++ repr (snd kv)) d)
          ++ "}"
  end.

(** [str(v)], also what an f-string puts in place of [{v}]. *)
Definition str (v : value) : string :=
  match v with
  | VStr s => s
  | _ => repr v
  end.

End PyStr.


(** ** Dynamic operations of the interpreter *)

Module Py.

(** The line feed, Python's ["\n"]. *)
Definition nl : string := String (ascii_of_nat 10) "".

(** The first binding of [k] in a dict. *)
Fixpoint assoc (k : string) (d : list (string * value)) : option value :=
  match d with
  | [] => None
  | (k', v) :: d' => if String.eqb k' k then Some v else assoc k d'
  end.

(** [v[k]] for a string [k]: [KeyError] on a dict without the key,
    [TypeError] on anything that is not a dict. *)
Definition getitem (v : value) (k : string) : result value :=
  match v with
  | VDict d =>
      match assoc k d with
      | Some x => Ok x
      | None => Raise (KeyError k)
      end
  | _ => Raise (TypeError None)
  end.

(** [v.get(k, default)]: only a dict has the method. *)
Definition get (v : value) (k : string) (default : value) : result value :=
  match v with
  | VDict d =>
      match assoc k d with
      | Some x => Ok x
      | None => Ok default
      end
  | _ => Raise AttributeError
  end.

(** [v.keys()], [v.values()] and [v.items()]. *)
Definition keys (v : value) : result (list string) :=
  match v with
  | VDict d => Ok (List.map fst d)
  | _ => Raise AttributeError
  end.

Definition values (v : value) : result (list value) :=
  match v with
  | VDict d => Ok (List.map snd d)
  | _ => Raise AttributeError
  end.

Definition items (v : value) : result (list (string * value)) :=
  match v with
  | VDict d => Ok d
  | _ => Raise AttributeError
  end.

Fixpoint chars (s : string) : list value :=
  match s with
  | EmptyString => []
  | String c s' => VStr (String c "") :: chars s'
  end.

(** What [for x in v] goes through: the elements of a list, the keys of a
    dict, the characters of a string; nothing else here is iterable. *)
Definition iter (v : value) : result (list value) :=
  match v with
  | VList l => Ok l
  | VDict d => Ok (List.map (fun kv => VStr (fst kv)) d)
  | VStr s => Ok (chars s)
  | _ => Raise (TypeError None)
  end.

(** [a + b] where one operand is a string: both must be. *)
Definition add (a b : value) : result string :=
  match a, b with
  | VStr x, VStr y => Ok (x ++ y)
  | _, _ => Raise (TypeError None)
  end.

(** [v == s] for a string literal [s]. *)
Definition eq_str (v : value) (s : string) : bool :=
  match v with
  | VStr x => String.eqb x s
  | _ => false
  end.

(** Truth value of [v] in a condition. *)
Definition truthy (v : value) : bool :=
  match v with
  | VNone => false
  | VBool b => b
  | VInt n => negb (n =? 0)
  | VStr s => negb (String.eqb s "")
  | VList l => match l with [] => false | _ => true end
  | VDict d => match d with [] => false | _ => true end
  end.

(** [for x in l: body], the state threaded through, stopping at the first
    exception. *)
Fixpoint for_each {A S : Type} (body : A -> S -> result S) (l : list A) (s : S)
  : result S :=
  match l with
  | [] => Ok s
  | x :: l' => s' ← body x s; for_each body l' s'
  end.

(** [[f(x) for x in l]]. *)
Fixpoint map_each {A B : Type} (f : A -> result B) (l : list A) : result (list B) :=
  match l with
  | [] => Ok []
  | x :: l' => y ← f x; ys ← map_each f l'; Ok (y :: ys)
  end.

End Py.

(** ** [str_to_type] *)

(** The four Python types the program hands to click: [int], [bool], [str]
    and [list]. *)
Inductive py_type : Type := Tint | Tbool | Tstr | Tlist.

Definition str_to_type (type_name : value) : result py_type :=
  if Py.eq_str type_name "integer" then Ok Tint
  else if Py.eq_str type_name "boolean" then Ok Tbool
  else if Py.eq_str type_name "string" then Ok Tstr
  else if Py.eq_str type_name "array" then Ok Tlist
  else Raise (TypeError (Some ("Unknown type: " ++ PyStr.str type_name))).

(** ** click

    The part of click the program uses: an option is declared with a flag, a
    help text, a default, a required flag and a type; a command has a name,
    a documentation string, its options and a callback; a group maps names to
    commands. *)

Module Click.

Record option_decl : Type := {
  opt_name : string;      (* the keyword the value is passed under *)
  opt_flag : string;      (* [--name] *)
  opt_help : value;
  opt_default : value;
  opt_required : value;
  opt_type : py_type
}.

Definition lower_ascii (c : ascii) : ascii :=
  let n := nat_of_ascii c in
  if (Nat.leb 65 n && Nat.leb n 90)%bool then ascii_of_nat (n + 32) else c.

(** [rest.replace("-", "_").lower()] *)
Fixpoint normalise (s : string) : string :=
  match s with
  | EmptyString => EmptyString
  | String c s' =>
      String (if Ascii.eqb c "-" then "_"%char else lower_ascii c) (normalise s')
  end.

Definition ident_start (c : ascii) : bool :=
  let n := nat_of_ascii c in
  ((Nat.leb 97 n && Nat.leb n 122) || (Nat.leb 65 n && Nat.leb n 90)
   || Nat.eqb n 95)%bool.

Definition ident_char (c : ascii) : bool :=
  let n := nat_of_ascii c in
  (ident_start c || (Nat.leb 48 n && Nat.leb n 57))%bool.

Fixpoint all_chars (p : ascii -> bool) (s : string) : bool :=
  match s with
  | EmptyString => true
  | String c s' => p c && all_chars p s'
  end.

(** [s.isidentifier()], for ASCII identifiers. *)
Definition isidentifier (s : string) : bool :=
  match s with
  | EmptyString => false
  | String c s' => ident_start c && all_chars ident_char s'
  end.

(** A help text click can clean up: a string, or something false, which it
    leaves alone. *)
Definition help_ok (help : value) : bool :=
  match help with
  | VStr _ => true
  | v => negb (Py.truthy v)
  end.

(** [click.option("--" + name, help=..., default=..., required=...,
    type=...)].  click cleans the help text, which fails on a true value
    that is not a string; it passes the option's value under the flag's name
    with [-] turned into [_] and in lower case, and refuses with a
    [TypeError] a flag from which it gets no identifier.  A name with [/] in
    it, which click reads as a flag with an off-switch, counts as giving no
    identifier here. *)
Definition option (name : string) (help default required : value) (type : py_type)
  : result option_decl :=
  if negb (help_ok help) then Raise AttributeError
  else
    let kw := normalise name in
    if isidentifier kw
    then Ok {| opt_name := kw; opt_flag := "--" ++ name; opt_help := help;
               opt_default := default; opt_required := required;
               opt_type := type |}
    else Raise (TypeError None).

(** Does [v] already have the Python type [t]? *)
Definition has_type (t : py_type) (v : value) : bool :=
  match t, v with
  | Tint, VInt _ | Tbool, VBool _ | Tstr, VStr _ | Tlist, VList _ => true
  | _, _ => false
  end.

(** click converts a default through the option's type.  On a value that
    has the type this is the identity; what it does with a value of another
    shape is not modelled ([None]). *)
Definition convert (t : py_type) (v : value) : Datatypes.option value :=
  if has_type t v then Some v else None.

(** The value of an option that is not given on the command line: its
    default, converted through the option's type.  The program passes
    [default=] to every option, so a parameter without a schema default is
    declared with [default=None]; when it is not required, click binds
    [None].  When it is required, what click does depends on the version of
    click (see [unset_value_at]); the program pins none, and the case is
    left open here ([None]). *)
Definition unset_value (o : option_decl) : Datatypes.option (result value) :=
  match opt_default o with
  | VNone => if Py.truthy (opt_required o) then None else Some (Ok VNone)
  | d => Ok <$> convert (opt_type o) d
  end.

(** The keyword arguments of a callback: for every option, in turn, the
    value given on the command line ([given], already converted) or the
    value of the unset option. *)
Fixpoint bind_options (params : list option_decl) (given kwargs : gmap string value)
  : Datatypes.option (result (gmap string value)) :=
  match params with
  | [] => Some (Ok kwargs)
  | o :: params' =>
      match given !! opt_name o with
      | Some v => bind_options params' given (<[opt_name o := v]> kwargs)
      | None =>
          match unset_value o with
          | None => None
          | Some (Raise e) => Some (Raise e)
          | Some (Ok v) => bind_options params' given (<[opt_name o := v]> kwargs)
          end
      end
  end.

(** The two behaviours of click on an unset required option declared with
    [default=None]: up to 8.2 click reads [None] as no default and reports
    the option as missing; from 8.3 on it tells an explicit [default=None]
    from no default at all and binds [None]. *)
Inductive version : Type := Before_8_3 | From_8_3.

Definition unset_value_at (v : version) (o : option_decl)
  : Datatypes.option (result value) :=
  match opt_default o with
  | VNone =>
      if Py.truthy (opt_required o)
      then match v with
           | Before_8_3 => Some (Raise (MissingParameter (opt_name o)))
           | From_8_3 => Some (Ok VNone)
           end
      else Some (Ok VNone)
  | d => Ok <$> convert (opt_type o) d
  end.

(** [bind_options] under one of the two versions. *)
Fixpoint bind_options_at (v : version) (params : list option_decl)
    (given kwargs : gmap string value)
  : Datatypes.option (result (gmap string value)) :=
  match params with
  | [] => Some (Ok kwargs)
  | o :: params' =>
      match given !! opt_name o with
      | Some x => bind_options_at v params' given (<[opt_name o := x]> kwargs)
      | None =>
          match unset_value_at v o with
          | None => None
          | Some (Raise e) => Some (Raise e)
          | Some (Ok x) => bind_options_at v params' given (<[opt_name o := x]> kwargs)
          end
      end
  end.

End Click.

(** ** [add_parameters] *)

(** One turn of the loop of [add_parameters]: the [click.option] call for
    one parameter, its arguments evaluated from left to right. *)
Definition parameter_option (parameter : value) : result Click.option_decl :=
  name ← Py.getitem parameter "name";
  help ← Py.get parameter "description" VNone;
  schema ← Py.getitem parameter "schema";
  default ← Py.get schema "default" VNone;
  required ← Py.get parameter "required" (VBool true);
  schema' ← Py.getitem parameter "schema";
  type_name ← Py.get schema' "type" (VStr "string");
  type ← str_to_type type_name;
  Click.option (PyStr.str name) help default required type.

(** The options attached to the decorated function, in the order in which
    the loop attaches them. *)
Definition add_parameters (parameters : value) : result (list Click.option_decl) :=
  ps ← Py.iter parameters;
  Py.map_each parameter_option ps.

(** ** Commands and groups *)

Definition BASE_URL : string := "http://localhost:8000".
Definition COMMAND_NAME : string := "openapi-cli".
Definition PROGRAM_NAME : string := "OpenAPI CLI".

(** What a command runs: the [func] of [create_command], closed over its
    method, path and parameters, or the [version] of [create_cli], closed
    over the document. *)
Inductive callback : Type :=
| Func (method path : string) (parameters : value)
| Version (openapi_json : value).

Record command : Type := {
  cmd_name : string;
  cmd_doc : string;
  cmd_params : list Click.option_decl;
  cmd_callback : callback
}.

Record group : Type := {
  grp_name : string;
  grp_doc : string;
  grp_commands : gmap string command
}.

(** The root group [main]. *)
Record cli : Type := {
  cli_doc : string;
  cli_commands : gmap string group
}.

(** [group.add_command(cmd)]: the command is stored under its name. *)
Definition add_command (cmd : command) (g : group) : group :=
  {| grp_name := grp_name g; grp_doc := grp_doc g;
     grp_commands := <[cmd_name cmd := cmd]> (grp_commands g) |}.

(** [click.command] reverses the list the option decorators built. *)
Definition create_command (method path documentation : string) (parameters : value)
  : result command :=
  opts ← add_parameters parameters;
  Ok {| cmd_name := path; cmd_doc := documentation; cmd_params := rev opts;
        cmd_callback := Func method path parameters |}.

Definition create_group (method documentation : string) : group :=
  {| grp_name := method; grp_doc := documentation; grp_commands := ∅ |}.

(** ** The body of a generated command *)

Record request : Type := {
  req_method : string;
  req_url : string;
  req_params : gmap string value
}.

Record response : Type := {
  status_code : Z;
  text : string
}.

(** The loop of [func] for one parameter: the filter on ["in"], then, for a
    path parameter, the replacement in [request_path] and the deletion from
    [kwargs].  [filter] is lazy, so the test of a parameter comes after the
    body has run for the parameters before it. *)
Definition template_step (parameter : value) (st : string * gmap string value)
  : result (string * gmap string value) :=
  let '(request_path, kwargs) := st in
  loc ← Py.getitem parameter "in";
  if Py.eq_str loc "path" then
    name ← Py.getitem parameter "name";
    l ← Py.add (VStr "{") name;
    old ← Py.add (VStr l) (VStr "}");
    match name with
    | VStr n =>
        match kwargs !! n with
        | Some v => Ok (Str.replace old (PyStr.str v) request_path, delete n kwargs)
        | None => Raise (KeyError n)
        end
    | _ => Raise (TypeError None)
    end
  else Ok st.

(** [func] up to the request it is about to send. *)
Definition func_request (method path : string) (parameters : value)
    (kwargs : gmap string value) : result request :=
  ps ← Py.iter parameters;
  '(request_path, kwargs') ← Py.for_each template_step ps (path, kwargs);
  Ok {| req_method := Str.upper method; req_url := BASE_URL ++ request_path;
        req_params := kwargs' |}.

(** [print(x)] writes [x] and a line feed. *)
Definition print (x : string) : string := x ++ Py.nl.

Section World.

(** [httpx.request]: a response, whatever its status, or the exception of
    a failed transport. *)
Variable httpx_request : request -> result response.

(** [os.environ] *)
Variable environ : gmap string string.

Definition environ_get (k default : string) : string :=
  match environ !! k with
  | Some v => v
  | None => default
  end.

Definition get_program_version : string := environ_get "VERSION" "unknown_version".
Definition get_program_license : string := environ_get "LICENSE" "unknown_license".
Definition get_program_authors : string := environ_get "AUTHORS" "unknown_authors".

(** [func] called with the keyword arguments [kwargs]: what it prints. *)
Definition func (method path : string) (parameters : value)
    (kwargs : gmap string value) : result string :=
  req ← func_request method path parameters kwargs;
  resp ← httpx_request req;
  Ok (print (text resp)).

(** The [version] command. *)
Definition version (openapi_json : value) : result string :=
  info ← Py.getitem openapi_json "info";
  project_name ← Py.getitem info "title";
  info' ← Py.getitem openapi_json "info";
  project_version ← Py.getitem info' "version";
  openapi_version ← Py.getitem openapi_json "openapi";
  let lines := [
    PyStr.str project_name ++ " " ++ PyStr.str project_version
      ++ " (OpenAPI: " ++ PyStr.str openapi_version ++ ")";
    "Generated using " ++ COMMAND_NAME ++ " (" ++ PROGRAM_NAME ++ ") "
      ++ get_program_version ++ ".";
    "";
    get_program_license;
    "";
    "Written by " ++ get_program_authors
  ] in
  Ok (print (Str.join Py.nl lines)).

Definition run_callback (cb : callback) (kwargs : gmap string value) : result string :=
  match cb with
  | Func method path parameters => func method path parameters kwargs
  | Version openapi_json => version openapi_json
  end.

(** Running a command with the options [given] on the command line: click
    binds the options, then calls the callback.  [None] where the binding
    is outside the model of click. *)
Definition invoke (cmd : command) (given : gmap string value)
  : Datatypes.option (result string) :=
  match Click.bind_options (cmd_params cmd) given ∅ with
  | None => None
  | Some (Raise e) => Some (Raise e)
  | Some (Ok kwargs) => Some (run_callback (cmd_callback cmd) kwargs)
  end.

(** [invoke] under one of the two versions of click. *)
Definition invoke_at (click : Click.version) (cmd : command)
    (given : gmap string value) : Datatypes.option (result string) :=
  match Click.bind_options_at click (cmd_params cmd) given ∅ with
  | None => None
  | Some (Raise e) => Some (Raise e)
  | Some (Ok kwargs) => Some (run_callback (cmd_callback cmd) kwargs)
  end.

End World.

(** ** [create_cli] *)

(** [set(obj.keys())] *)
Definition key_set (obj : value) : result (gset string) :=
  ks ← Py.keys obj;
  Ok (list_to_set ks).

(** [reduce(set.union, (set(obj.keys()) for obj in objs))]: without an
    initial value, [reduce] raises a [TypeError] on an empty iterable. *)
Definition reduce_union (objs : list value) : result (gset string) :=
  match objs with
  | [] => Raise (TypeError None)
  | obj :: objs' =>
      first ← key_set obj;
      Py.for_each (fun obj acc => s ← key_set obj; Ok (acc ∪ s)) objs' first
  end.

(** The dict comprehension that makes one group per method.  A Python set is
    iterated in an order the language leaves open; [elements] fixes one, and
    a dict keyed by the methods does not depend on it. *)
Definition method_groups (method_keys : gset string) : gmap string group :=
  list_to_map
    ((fun method =>
        (method, create_group method ("Collection of " ++ method ++ " calls")))
       <$> elements method_keys).

(** The command of one operation: the first three statements of the inner
    loop over [obj.items()]. *)
Definition operation_command (path method : string) (mobj : value) : result command :=
  s ← Py.get mobj "summary" (VStr "");
  s' ← Py.add s (VStr (Py.nl ++ Py.nl));
  d ← Py.get mobj "description" (VStr "");
  summary ← Py.add (VStr s') d;
  parameters ← Py.get mobj "parameters" (VList []);
  create_command method path summary parameters.

(** The body of the inner loop: the command goes into the group of its
    method. *)
Definition add_operation (path : string) (item : string * value)
    (methods : gmap string group) : result (gmap string group) :=
  let '(method, mobj) := item in
  cmd ← operation_command path method mobj;
  match methods !! method with
  | Some g => Ok (<[method := add_command cmd g]> methods)
  | None => Raise (KeyError method)
  end.

(** The body of the outer loop over [paths.items()]. *)
Definition add_path (item : string * value) (methods : gmap string group)
  : result (gmap string group) :=
  let '(path, obj) := item in
  ops ← Py.items obj;
  Py.for_each (add_operation path) ops methods.

Definition version_command (openapi_json : value) : command :=
  {| cmd_name := "version"; cmd_doc := "Output version information and exit";
     cmd_params := []; cmd_callback := Version openapi_json |}.

Definition meta_group (openapi_json : value) : group :=
  {| grp_name := "meta"; grp_doc := "Various meta endpoints.";
     grp_commands := {[ "version" := version_command openapi_json ]} |}.

(** [create_cli] from the parsed document on.  The groups are objects shared
    by [methods] and by [main]: a command added to [methods[method]] after
    the group was attached to [main] is in [main]'s group too, so the tree is
    the one in which [main] gets the finished groups.  A method named [meta]
    takes the place of the [meta] group. *)
Definition create_cli_from (openapi_json : value) : result cli :=
  info ← Py.getitem openapi_json "info";
  title ← Py.getitem info "title";
  t ← Py.add title (VStr Py.nl);
  info' ← Py.getitem openapi_json "info";
  description ← Py.get info' "description" (VStr "");
  doc ← Py.add (VStr t) description;
  paths ← Py.getitem openapi_json "paths";
  objs ← Py.values paths;
  method_keys ← reduce_union objs;
  let methods := method_groups method_keys in
  paths' ← Py.getitem openapi_json "paths";
  its ← Py.items paths';
  methods' ← Py.for_each add_path its methods;
  Ok {| cli_doc := doc;
        cli_commands := methods' ∪ {[ "meta" := meta_group openapi_json ]} |}.

(** [create_cli]: [fetched] is the outcome of the first three statements, the
    parsed document or the exception of [httpx.get], [raise_for_status] or
    [json]. *)
Definition create_cli (fetched : result value) : result cli :=
  openapi_json ← fetched;
  create_cli_from openapi_json.

(** ** The process *)

Section Process.

Variable httpx_request : request -> result response.
Variable environ : gmap string string.

(** [main()] on the command line [grp cmd --opt value ...]. *)
Definition run (c : cli) (grp cmd : string) (given : gmap string value)
  : Datatypes.option (result string) :=
  match cli_commands c !! grp with
  | None => Some (Raise UsageError)
  | Some g =>
      match grp_commands g !! cmd with
      | None => Some (Raise UsageError)
      | Some k => invoke httpx_request environ k given
      end
  end.

(** The script: build the interface, then run it. *)
Definition script (fetched : result value) (grp cmd : string)
    (given : gmap string value) : Datatypes.option (result string) :=
  match create_cli fetched with
  | Raise e => Some (Raise e)
  | Ok c => run c grp cmd given
  end.

End Process.

(** The exit status of the process: 0 when the command returns, 2 for a
    usage error reported by click, 1 for any other exception. *)
Definition exit_status {A} (r : result A) : Z :=
  match r with
  | Ok _ => 0
  | Raise (MissingParameter _) | Raise UsageError => 2
  | Raise _ => 1
  end.

(** ** Vocabulary of the statements *)

(** The value at a path of keys in a document, [None] when a key is absent
    on the way. *)
Fixpoint field (keys : list string) (v : value) : Datatypes.option value :=
  match keys with
  | [] => Some v
  | k :: keys' =>
      match v with
      | VDict d =>
          match Py.assoc k d with
          | Some x => field keys' x
          | None => None
          end
      | _ => None
      end
  end.

(** The exceptions by which a lookup in a malformed document fails. *)
Definition lookup_failure (e : exn) : Prop :=
  match e with
  | KeyError _ | TypeError None => True
  | _ => False
  end.

(** The documentation string of [main] can be built: [info.title] is a
    string and [info.description] is a string or absent. *)
Definition header_ok (doc : value) : bool :=
  match field ["info"; "title"] doc, field ["info"; "description"] doc with
  | Some (VStr _), (None | Some (VStr _)) => true
  | _, _ => false
  end.

(** A parameter located in the path: its ["in"] is ["path"]. *)
Definition is_path (parameter : value) : bool :=
  match field ["in"] parameter with
  | Some loc => Py.eq_str loc "path"
  | None => false
  end.

(** The name of a parameter, when it has one that is a string. *)
Definition name_of (parameter : value) : Datatypes.option string :=
  match field ["name"] parameter with
  | Some (VStr n) => Some n
  | _ => None
  end.

(** The names of the path parameters of a list, in order. *)
Definition path_names (parameters : list value) : list string :=
  omap (fun p => if is_path p then name_of p else None) parameters.

(** What the loop of [func] needs of a parameter: a location, and a name
    when the location is the path. *)
Definition spec_ok (parameter : value) : bool :=
  match field ["in"] parameter with
  | Some loc =>
      if Py.eq_str loc "path"
      then match name_of parameter with Some _ => true | None => false end
      else true
  | None => false
  end.

(** The placeholder [{name}]. *)
Definition placeholder (name : string) : string := "{" ++ name ++ "}".

(** The path [func] requests for a template: the first component of the
    loop's result. *)
Definition render (parameters : list value) (kwargs : gmap string value)
    (template : string) : result string :=
  fst <$> Py.for_each template_step parameters (template, kwargs).

(** A server that answers every request with [resp]. *)
Definition always (resp : response) : request -> result response :=
  fun _ => Ok resp.

(** ** Concrete inputs *)

(** A document without [paths]. *)
Definition doc_without_paths : value :=
  VDict [("openapi", VStr "3.0.2");
         ("info", VDict [("title", VStr "Bookstore"); ("version", VStr "0.0.1")])].

(** A document that has [info.title] and [paths] but neither [info.version]
    nor [openapi]. *)
Definition doc_without_versions : value :=
  VDict [("info", VDict [("title", VStr "Bookstore")]);
         ("paths", VDict [("/a", VDict [("get", VDict [])])])].

(** A document whose [paths] is empty. *)
Definition doc_empty_paths : value :=
  VDict [("openapi", VStr "3.0.2");
         ("info", VDict [("title", VStr "Bookstore"); ("version", VStr "0.0.1")]);
         ("paths", VDict [])].

(** A document with the operations GET /a, POST /a and GET /b. *)
Definition doc_abc : value :=
  VDict [("openapi", VStr "3.0.2");
         ("info", VDict [("title", VStr "Bookstore"); ("version", VStr "0.0.1")]);
         ("paths", VDict [("/a", VDict [("get", VDict []); ("post", VDict [])]);
                          ("/b", VDict [("get", VDict [])])])].

(** The command of an operation that declares nothing. *)
Definition bare_command (method path : string) : command :=
  {| cmd_name := path; cmd_doc := Py.nl ++ Py.nl; cmd_params := [];
     cmd_callback := Func method path (VList []) |}.

(** Parameters as an OpenAPI document declares them. *)
Definition user_id_parameter : value :=
  VDict [("name", VStr "userId"); ("in", VStr "path"); ("required", VBool true);
         ("schema", VDict [("type", VStr "string")])].

Definition id_parameter : value :=
  VDict [("name", VStr "id"); ("in", VStr "path"); ("required", VBool true);
         ("schema", VDict [("type", VStr "integer")])].

Definition optional_id_parameter : value :=
  VDict [("name", VStr "id"); ("in", VStr "path"); ("required", VBool false);
         ("schema", VDict [("type", VStr "integer")])].

Definition optional_user_id_parameter : value :=
  VDict [("name", VStr "userId"); ("in", VStr "path"); ("required", VBool false);
         ("schema", VDict [("type", VStr "string")])].

(** Two path parameters with the one-letter names [a] and [n]. *)
Definition a_parameter : value :=
  VDict [("name", VStr "a"); ("in", VStr "path"); ("required", VBool true);
         ("schema", VDict [("type", VStr "string")])].

Definition n_parameter : value :=
  VDict [("name", VStr "n"); ("in", VStr "path"); ("required", VBool true);
         ("schema", VDict [("type", VStr "string")])].

Definition limit_parameter : value :=
  VDict [("name", VStr "limit"); ("in", VStr "query");
         ("schema", VDict [("type", VStr "integer"); ("default", VInt 10)])].

(** A document with one operation that declares a path parameter and a
    query parameter. *)
Definition doc_items : value :=
  VDict [("openapi", VStr "3.0.2");
         ("info", VDict [("title", VStr "Bookstore"); ("version", VStr "0.0.1")]);
         ("paths",
          VDict [("/items/{id}",
                  VDict [("get",
                          VDict [("summary", VStr "Read an item");
                                 ("parameters",
                                  VList [id_parameter; limit_parameter])])])])].

(** A response with an error status. *)
Definition not_found : response :=
  {| status_code := 404; text := "not found" |}.

(** ** Templates as tokens

    A path template read as a sequence of literal texts and placeholders,
    used to say what the loop of [func] computes. *)

Inductive token : Type :=
| Lit (text : string)
| Hole (name : string).

Definition token_text (t : token) : string :=
  match t with
  | Lit text => text
  | Hole name => placeholder name
  end.

Fixpoint flatten (tokens : list token) : string :=
  match tokens with
  | [] => ""
  | t :: tokens' => token_text t ++ flatten tokens'
  end.

(** A literal holds no opening brace, a name no brace at all. *)
Definition token_ok (t : token) : bool :=
  match t with
  | Lit text => negb (Str.mem "{" text)
  | Hole name => Str.brace_free name
  end.

(** Every placeholder whose name is in [names] and bound in [kwargs] gives way
    to the text of its value, all at once. *)
Definition fill (names : list string) (kwargs : gmap string value) (t : token)
  : string :=
  match t with
  | Lit text => text
  | Hole name =>
      if bool_decide (name ∈ names)
      then match kwargs !! name with
           | Some v => PyStr.str v
           | None => placeholder name
           end
      else placeholder name
  end.

Fixpoint fill_all (names : list string) (kwargs : gmap string value)
    (tokens : list token) : string :=
  match tokens with
  | [] => ""
  | t :: tokens' => fill names kwargs t ++ fill_all names kwargs tokens'
  end.

(** [plug name text] puts the literal [text] in the place of the placeholder
    [{name}]. *)
Definition plug (name text : string) (t : token) : token :=
  match t with
  | Hole k => if String.eqb k name then Lit text else t
  | Lit _ => t
  end.

(** ** Operations of a document *)

(** The operations under [paths]: path, method and operation object, in the
    order of the two loops of [create_cli]. *)
Definition operations (paths : list (string * value))
  : list (string * string * value) :=
  flat_map
    (fun item =>
       match snd item with
       | VDict ops => List.map (fun op => (fst item, fst op, snd op)) ops
       | _ => []
       end)
    paths.

(** The parameters [create_cli] reads from an operation object. *)
Definition operation_parameters (mobj : value) : list value :=
  match Py.get mobj "parameters" (VList []) with
  | Ok parameters =>
      match Py.iter parameters with
      | Ok ps => ps
      | Raise _ => []
      end
  | Raise _ => []
  end.

(** The type names [str_to_type] knows. *)
Definition supported_type (type_name : value) : bool :=
  Py.eq_str type_name "integer" || Py.eq_str type_name "boolean"
  || Py.eq_str type_name "string" || Py.eq_str type_name "array".

(** The type name [add_parameters] reads for a parameter: that of its schema,
    [string] when the schema has none. *)
Definition declared_type (parameter : value) : Datatypes.option value :=
  match field ["schema"] parameter with
  | Some (VDict schema) => Some (default (VStr "string") (Py.assoc "type" schema))
  | _ => None
  end.

(** The method groups after the loops of [create_cli] have gone through the
    operations [seen]: every group is stored under its name and documented
    as the collection of its method, every command in it is the command of
    an operation seen, stored under that operation's path, and every
    operation seen has a command. *)
Definition grouped (seen : list (string * string * value))
    (methods : gmap string group) : Prop :=
  (forall k g, methods !! k = Some g ->
     grp_name g = k /\
     grp_doc g = "Collection of " ++ k ++ " calls" /\
     forall p cmd, grp_commands g !! p = Some cmd ->
       exists mobj, (p, k, mobj) ∈ seen /\ operation_command p k mobj = Ok cmd) /\
  (forall p k mobj, (p, k, mobj) ∈ seen ->
     exists g cmd, methods !! k = Some g /\ grp_commands g !! p = Some cmd).

(** * The Bookstore service

    [src/project/main.py]: the service the generated interface talks to by
    default.  Its handlers are modelled as the Python functions they are,
    over the two module-level dicts; what FastAPI does around them (routing,
    validation of the arguments, serialisation of the results) is not
    modelled.  The handlers are coroutines that never await, so each runs to
    its end before the next starts. *)

Module Bookstore.

Record Author : Type := {
  author_name : string;
  author_metadata : string
}.

Record Book : Type := {
  book_authors : gset string;
  book_name : string
}.

(** What a handler raises: the [HTTPException] it builds, or the
    [NameError] of a name that is bound nowhere. *)
Inductive failure : Type :=
| HTTPException (status_code : Z) (detail : string)
| NameError (name : string).

Inductive reply (A : Type) : Type :=
| Return (a : A)
| Fail (f : failure).

Arguments Return {A} a.
Arguments Fail {A} f.

(** The two dicts [authors] and [books]. *)
Record store : Type := {
  authors : gmap string Author;
  books : gmap string Book
}.

Definition dummy_authors : list Author := [
  {| author_name := "William Shakespeare";
     author_metadata := "Born 26 April 1564, died 23 April 1616" |};
  {| author_name := "Neil Gaiman";
     author_metadata := "Born 10 November 1960" |};
  {| author_name := "Terry Pratchett";
     author_metadata := "Born 28 April 1948, died 12 March 2015" |}
].

Definition dummy_books : list Book := [
  {| book_authors := {[ "Terry Pratchett" ]}; book_name := "Discworld" |};
  {| book_authors := {[ "Neil Gaiman"; "Terry Pratchett" ]};
     book_name := "Good Omens" |};
  {| book_authors := {[ "Neil Gaiman" ]}; book_name := "The Sandman" |};
  {| book_authors := {[ "William Shakespeare" ]}; book_name := "Hamlet" |};
  {| book_authors := {[ "William Shakespeare" ]}; book_name := "Macbeth" |}
].

(** [dict(map(lambda x: (x.name, x), xs))]: a later entry replaces an
    earlier one of the same name. *)
Definition initial : store :=
  {| authors := foldl (fun d a => <[author_name a := a]> d) ∅ dummy_authors;
     books := foldl (fun d b => <[book_name b := b]> d) ∅ dummy_books |}.

Definition get_authors (st : store) : reply (gset string) * store :=
  (Return (dom (authors st)), st).

(** [force] is accepted and never read. *)
Definition create_author (author : Author) (force : bool) (st : store)
  : reply string * store :=
  match authors st !! author_name author with
  | Some _ => (Fail (HTTPException 409 "Author already exists"), st)
  | None =>
      (Return "OK",
       {| authors := <[author_name author := author]> (authors st);
          books := books st |})
  end.

(** [del authors[author.name]]: the handler's parameter is [name]; [author]
    is bound neither in the function nor in the module, so the expression
    raises [NameError] before anything is deleted, and [except KeyError]
    does not apply to it. *)
Definition delete_author (name : string) (st : store) : reply string * store :=
  (Fail (NameError "author"), st).

Definition get_author (name : string) (st : store) : reply string * store :=
  match authors st !! name with
  | None => (Fail (HTTPException 404 "Author not found"), st)
  | Some author => (Return (author_metadata author), st)
  end.

(** [if q:] holds for a string that is not empty, [if authors:] for a set
    that is not empty. *)
Definition get_books (q : Datatypes.option string) (authors : gset string)
    (st : store) : reply (gset string) * store :=
  let response_books := (map_to_list (books st)).*2 in
  let response_books :=
    match q with
    | Some s =>
        if String.eqb s "" then response_books
        else filter (fun book => Str.occurs s (book_name book) = true) response_books
    | None => response_books
    end in
  let response_books :=
    if decide (authors = ∅) then response_books
    else filter (fun book => authors ⊆ book_authors book) response_books in
  (Return (list_to_set (book_name <$> response_books)), st).

Definition create_book (book : Book) (force : bool) (st : store)
  : reply string * store :=
  match books st !! book_name book with
  | Some _ => (Fail (HTTPException 409 "Book already exists"), st)
  | None =>
      (Return "OK",
       {| authors := authors st;
          books := <[book_name book := book]> (books st) |})
  end.

(** As [delete_author]: [book] is bound nowhere. *)
Definition delete_book (name : string) (st : store) : reply string * store :=
  (Fail (NameError "book"), st).

Definition get_book (name : string) (st : store) : reply (gset string) * store :=
  match books st !! name with
  | None => (Fail (HTTPException 404 "Book not found"), st)
  | Some book => (Return (book_authors book), st)
  end.

(** A call of one of the handlers, and the store it leaves. *)
Inductive call : Type :=
| GetAuthors
| CreateAuthor (author : Author) (force : bool)
| DeleteAuthor (name : string)
| GetAuthor (name : string)
| GetBooks (q : Datatypes.option string) (authors : gset string)
| CreateBook (book : Book) (force : bool)
| DeleteBook (name : string)
| GetBook (name : string).

Definition serve (c : call) (st : store) : store :=
  match c with
  | GetAuthors => snd (get_authors st)
  | CreateAuthor author force => snd (create_author author force st)
  | DeleteAuthor name => snd (delete_author name st)
  | GetAuthor name => snd (get_author name st)
  | GetBooks q authors => snd (get_books q authors st)
  | CreateBook book force => snd (create_book book force st)
  | DeleteBook name => snd (delete_book name st)
  | GetBook name => snd (get_book name st)
  end.

(** The store after a sequence of calls. *)
Definition serve_all (calls : list call) (st : store) : store :=
  foldl (fun st c => serve c st) st calls.

End Bookstore.

(** * Properties *)

(** ** Tests of the definitions on small inputs *)

Example str_none : PyStr.str VNone = "None".
Proof. reflexivity. Qed.

Example str_nested :
  PyStr.str (VList [VStr "it"; VInt (-12); VBool true; VDict [("k", VNone)]])
  = "['it', -12, True, {'k': None}]".
Proof. reflexivity. Qed.

Example replace_twice : Str.replace "{id}" "42" "/a/{id}/b/{id}" = "/a/42/b/42".
Proof. reflexivity. Qed.

Example replace_overlap : Str.replace "aa" "b" "aaa" = "ba".
Proof. reflexivity. Qed.

(** A replacement can make a placeholder that the template did not have. *)
Example replace_makes_placeholder :
  Str.occurs "{n}" "/{{m}n}" = false /\ Str.replace "{m}" "" "/{{m}n}" = "/{n}".
Proof. split; reflexivity. Qed.

Example render_two_placeholders :
  render [VDict [("name", VStr "id"); ("in", VStr "path")];
          VDict [("name", VStr "sub"); ("in", VStr "path")]]
    {[ "id" := VStr "42"; "sub" := VStr "x" ]} "/items/{id}/sub/{sub}"
  = Ok "/items/42/sub/x".
Proof. reflexivity. Qed.

Example required_option_missing :
  (cmd ← create_command "get" "/item/{id}" "" (VList [id_parameter]);
   Ok (Click.bind_options_at Click.Before_8_3 (cmd_params cmd) ∅ ∅,
       Click.bind_options_at Click.From_8_3 (cmd_params cmd) ∅ ∅))
  = Ok (Some (Raise (MissingParameter "id")), Some (Ok {[ "id" := VNone ]})).
Proof. reflexivity. Qed.

Example version_without_environment :
  version ∅ doc_abc
  = Ok (Str.join Py.nl
          ["Bookstore 0.0.1 (OpenAPI: 3.0.2)";
           "Generated using openapi-cli (OpenAPI CLI) unknown_version.";
           "";
           "unknown_license";
           "";
           "Written by unknown_authors"] ++ Py.nl).
Proof. reflexivity. Qed.

Example unknown_type_aborts :
  create_cli
    (Ok (VDict [("info", VDict [("title", VStr "T")]);
                ("paths",
                 VDict [("/a",
                         VDict [("get",
                                 VDict [("parameters",
                                         VList [VDict [("name", VStr "x");
                                                       ("in", VStr "query");
                                                       ("schema",
                                                        VDict [("type", VStr "number")])]])])])])]))
  = Raise (TypeError (Some "Unknown type: number")).
Proof. reflexivity. Qed.


(** ** Sequencing *)

Lemma bind_Ok {A B} (a : A) (k : A -> result B) : (Ok a ≫= k) = k a.
Proof. reflexivity. Qed.

Lemma bind_Raise {A B} (e : exn) (k : A -> result B) : (Raise e ≫= k) = Raise e.
Proof. reflexivity. Qed.

Lemma bind_inv_Ok {A B} (r : result A) (k : A -> result B) (b : B) :
  r ≫= k = Ok b -> exists a, r = Ok a /\ k a = Ok b.
Proof. destruct r as [a|e]; [eauto | discriminate]. Qed.

Lemma raises_Raise {A} (e : exn) : raises (@Raise A e).
Proof. by exists e. Qed.

Lemma raises_bind {A B} (r : result A) (k : A -> result B) :
  (forall a, r = Ok a -> raises (k a)) -> raises (r ≫= k).
Proof. destruct r as [a|e]; intros H; [by apply H | apply raises_Raise]. Qed.

Lemma raises_not_Ok {A} (r : result A) (a : A) : raises r -> r <> Ok a.
Proof. intros [e ->]; discriminate. Qed.

Lemma exit_status_Raise {A} (e : exn) : exit_status (@Raise A e) <> 0.
Proof. destruct e; discriminate. Qed.

#[local] Hint Resolve raises_Raise : core.

(** ** Type Mapper *)

(** C5.  [str_to_type] maps each of the four names [integer], [boolean],
    [string] and [array] to its Python type, and on every other string it
    raises the [TypeError] whose message is [Unknown type: ] followed by the
    offending name. *)
Theorem str_to_type_supported_or_unknown :
  str_to_type (VStr "integer") = Ok Tint /\
  str_to_type (VStr "boolean") = Ok Tbool /\
  str_to_type (VStr "string") = Ok Tstr /\
  str_to_type (VStr "array") = Ok Tlist /\
  forall s : string,
    s ∉ ["integer"; "boolean"; "string"; "array"] ->
    str_to_type (VStr s) = Raise (TypeError (Some ("Unknown type: " ++ s))).
Proof.
  repeat split; intros s Hs.
  unfold str_to_type, Py.eq_str.
  repeat match goal with
         | |- context [String.eqb s ?k] =>
             destruct (String.eqb_spec s k) as [->|_];
             [exfalso; apply Hs; rewrite !elem_of_cons; tauto|]
         end.
  reflexivity.
Qed.

Lemma str_to_type_supported_or_unknown_witness :
  str_to_type (VStr "number") = Raise (TypeError (Some "Unknown type: number")).
Proof.
  apply (proj2 (proj2 (proj2 (proj2 str_to_type_supported_or_unknown))) "number").
  rewrite !elem_of_cons, elem_of_nil.
  intros [H|[H|[H|[H|[]]]]]; discriminate H.
Defined.

(** ** Construction of the interface *)

Lemma getitem_failure (v : value) (k : string) (e : exn) :
  Py.getitem v k = Raise e -> lookup_failure e.
Proof.
  destruct v as [| | | | |d]; simpl; try (intros [= <-]; exact I).
  destruct (Py.assoc k d); [discriminate | intros [= <-]; exact I].
Qed.

Lemma getitem_Ok (v : value) (k : string) (x : value) :
  Py.getitem v k = Ok x <-> field [k] v = Some x.
Proof.
  destruct v as [| | | | |d]; simpl; try (split; discriminate).
  destruct (Py.assoc k d); split; congruence.
Qed.

Lemma getitem_absent (v : value) (k : string) :
  field [k] v = None -> exists e, Py.getitem v k = Raise e /\ lookup_failure e.
Proof.
  intros H. destruct (Py.getitem v k) as [x|e] eqn:E.
  - apply getitem_Ok in E. congruence.
  - exists e. split; [done | by eapply getitem_failure].
Qed.

Lemma field_cons (k : string) (ks : list string) (v : value) :
  field (k :: ks) v = field [k] v ≫= field ks.
Proof.
  destruct v as [| | | | |d]; try reflexivity.
  simpl. by destruct (Py.assoc k d).
Qed.

Lemma add_failure (a b : value) (e : exn) :
  Py.add a b = Raise e -> lookup_failure e.
Proof. destruct a, b; simpl; intros [= <-] || discriminate; exact I. Qed.

Lemma get_of_dict (v : value) (k k' : string) (x default : value) :
  Py.getitem v k = Ok x -> exists y, Py.get v k' default = Ok y.
Proof.
  destruct v as [| | | | |d]; simpl; try discriminate.
  intros _. destruct (Py.assoc k' d); eauto.
Qed.

(** A document without [info.title] or without [paths] makes
    [create_cli_from] fail on a lookup. *)
Lemma create_cli_from_malformed (doc : value) :
  field ["info"; "title"] doc = None \/ field ["paths"] doc = None ->
  exists e, create_cli_from doc = Raise e /\ lookup_failure e.
Proof.
  intros H. unfold create_cli_from.
  destruct (Py.getitem doc "info") as [info|e] eqn:Ei;
    [|exists e; split; [done | by eapply getitem_failure]].
  rewrite bind_Ok.
  destruct (Py.getitem info "title") as [title|e] eqn:Et;
    [|exists e; split; [done | by eapply getitem_failure]].
  rewrite bind_Ok.
  destruct H as [H|H].
  { rewrite field_cons in H. apply getitem_Ok in Ei, Et.
    rewrite Ei in H. simpl in H. unfold field in Et. congruence. }
  destruct (Py.add title _) as [t|e] eqn:Ea;
    [|exists e; split; [done | by eapply add_failure]].
  rewrite !bind_Ok.
  destruct (get_of_dict info "title" "description" title (VStr "") Et)
    as [description ->].
  rewrite bind_Ok.
  destruct (Py.add (VStr t) description) as [d|e] eqn:Ea';
    [|exists e; split; [done | by eapply add_failure]].
  rewrite bind_Ok.
  destruct (getitem_absent doc "paths" H) as (e & -> & He).
  by exists e.
Qed.

(** C2, as amended.  When [info.title] or [paths] is absent from the fetched
    document, [create_cli] raises a lookup error ([KeyError], or [TypeError]
    when the place of the dict holds something else): no command tree is
    returned, whatever command was asked for is not run, and the exit status
    is not zero. *)
Theorem create_cli_malformed_description (doc : value) :
  field ["info"; "title"] doc = None \/ field ["paths"] doc = None ->
  exists e,
    create_cli (Ok doc) = Raise e /\ lookup_failure e /\
    (forall c, create_cli (Ok doc) <> Ok c) /\
    (forall httpx_request environ grp cmd given,
        script httpx_request environ (Ok doc) grp cmd given = Some (Raise e)) /\
    exit_status (create_cli (Ok doc)) <> 0.
Proof.
  intros H. destruct (create_cli_from_malformed doc H) as (e & He & Hf).
  exists e. unfold script, create_cli. rewrite bind_Ok, He.
  repeat split; try done. apply exit_status_Raise.
Qed.

Lemma create_cli_malformed_description_witness :
  exists e,
    create_cli (Ok doc_without_paths) = Raise e /\ lookup_failure e /\
    (forall c, create_cli (Ok doc_without_paths) <> Ok c) /\
    (forall httpx_request environ grp cmd given,
        script httpx_request environ (Ok doc_without_paths) grp cmd given
        = Some (Raise e)) /\
    exit_status (create_cli (Ok doc_without_paths)) <> 0.
Proof.
  apply (create_cli_malformed_description doc_without_paths).
  right. reflexivity.
Defined.

(** C2, counterexample.  [info.version] and [openapi] are absent, and yet
    [create_cli] returns a command tree, and the command [get /a] of that
    tree runs and exits with status 0.  The two fields are read by the
    [version] command only, which is where their absence raises. *)
Lemma create_cli_accepts_missing_versions :
  field ["info"; "version"] doc_without_versions = None /\
  field ["openapi"] doc_without_versions = None /\
  (exists c, create_cli (Ok doc_without_versions) = Ok c) /\
  exit_status (create_cli (Ok doc_without_versions)) = 0 /\
  script (always {| status_code := 200; text := "ok" |}) ∅
    (Ok doc_without_versions) "get" "/a" ∅ = Some (Ok (print "ok")) /\
  script (always {| status_code := 200; text := "ok" |}) ∅
    (Ok doc_without_versions) "meta" "version" ∅ = Some (Raise (KeyError "version")).
Proof.
  split; [reflexivity|]. split; [reflexivity|].
  split; [eexists; reflexivity|].
  repeat split; vm_compute; reflexivity.
Qed.

(** The two version fields are the business of the [version] command: it
    raises a lookup error when [info.version] or [openapi] is absent. *)
Lemma version_requires_version_fields (environ : gmap string string) (doc : value) :
  field ["info"; "version"] doc = None \/ field ["openapi"] doc = None ->
  exists e, version environ doc = Raise e /\ lookup_failure e.
Proof.
  intros H. unfold version.
  destruct (Py.getitem doc "info") as [info|e] eqn:Ei;
    [|exists e; split; [done | by eapply getitem_failure]].
  rewrite bind_Ok.
  destruct (Py.getitem info "title") as [title|e] eqn:Et;
    [|exists e; split; [done | by eapply getitem_failure]].
  rewrite !bind_Ok.
  destruct (Py.getitem info "version") as [project_version|e] eqn:Ev;
    [|exists e; split; [done | by eapply getitem_failure]].
  rewrite bind_Ok.
  destruct (Py.getitem doc "openapi") as [openapi_version|e] eqn:Eo;
    [|exists e; split; [done | by eapply getitem_failure]].
  exfalso. apply getitem_Ok in Ei, Ev, Eo. destruct H as [H|H]; [|congruence].
  rewrite field_cons, Ei in H. cbn [mbind option_bind] in H. congruence.
Qed.

Lemma create_cli_from_empty_paths_raises (doc : value) :
  field ["paths"] doc = Some (VDict []) -> raises (create_cli_from doc).
Proof.
  intros H. apply getitem_Ok in H. unfold create_cli_from.
  do 6 (apply raises_bind; intros ? _).
  rewrite H, bind_Ok. simpl. apply raises_Raise.
Qed.

Lemma create_cli_from_empty_paths_header (doc : value) :
  field ["paths"] doc = Some (VDict []) -> header_ok doc = true ->
  create_cli_from doc = Raise (TypeError None).
Proof.
  intros H Hh. apply getitem_Ok in H. unfold create_cli_from.
  unfold header_ok in Hh.
  rewrite (field_cons "info" ["title"]), (field_cons "info" ["description"]) in Hh.
  destruct (Py.getitem doc "info") as [info|e] eqn:Ei.
  2:{ destruct (field ["info"] doc) eqn:Ef; [|discriminate].
      apply getitem_Ok in Ef. congruence. }
  pose proof Ei as Ef. apply getitem_Ok in Ef. rewrite Ef in Hh. simpl in Hh.
  destruct info as [| | | | |i]; try discriminate.
  simpl. simpl in Hh.
  destruct (Py.assoc "title" i) as [[| | |title| |]|]; try discriminate.
  destruct (Py.assoc "description" i) as [[| | |description| |]|];
    try discriminate; simpl; rewrite H; reflexivity.
Qed.

(** C8.  With an empty [paths] mapping [create_cli] raises and returns no
    root command; when the documentation string of [main] could be built,
    the exception is the [TypeError] of [reduce] on an empty iterable. *)
Theorem create_cli_empty_paths (doc : value) :
  field ["paths"] doc = Some (VDict []) ->
  exists e,
    create_cli (Ok doc) = Raise e /\
    (forall c, create_cli (Ok doc) <> Ok c) /\
    (header_ok doc = true -> e = TypeError None) /\
    reduce_union [] = Raise (TypeError None).
Proof.
  intros H. unfold create_cli. rewrite bind_Ok.
  destruct (create_cli_from_empty_paths_raises doc H) as [e He].
  exists e. rewrite He. repeat split; try done.
  intros Hh. rewrite (create_cli_from_empty_paths_header doc H Hh) in He.
  congruence.
Qed.

Lemma create_cli_empty_paths_witness :
  field ["paths"] doc_empty_paths = Some (VDict []) /\
  header_ok doc_empty_paths = true /\
  exists e,
    create_cli (Ok doc_empty_paths) = Raise e /\
    (forall c, create_cli (Ok doc_empty_paths) <> Ok c) /\
    (header_ok doc_empty_paths = true -> e = TypeError None) /\
    reduce_union [] = Raise (TypeError None).
Proof.
  split; [reflexivity|]. split; [reflexivity|].
  apply (create_cli_empty_paths doc_empty_paths). reflexivity.
Defined.

(** ** Command Synthesizer *)

Lemma create_command_name (method path documentation : string) (parameters : value)
    (c : command) :
  create_command method path documentation parameters = Ok c -> cmd_name c = path.
Proof.
  unfold create_command. intros H.
  apply bind_inv_Ok in H as (opts & _ & [= <-]). reflexivity.
Qed.

Lemma operation_command_name (path method : string) (mobj : value) (c : command) :
  operation_command path method mobj = Ok c -> cmd_name c = path.
Proof.
  unfold operation_command. intros H.
  do 5 (apply bind_inv_Ok in H as (? & _ & H)).
  by eapply create_command_name.
Qed.

(** With a well-formed header, [create_cli_from] is its second half, from
    the lookup of [paths] on. *)
Lemma create_cli_from_header (doc : value) :
  header_ok doc = true ->
  exists s,
    create_cli_from doc =
      (paths ← Py.getitem doc "paths";
       objs ← Py.values paths;
       method_keys ← reduce_union objs;
       paths' ← Py.getitem doc "paths";
       its ← Py.items paths';
       methods' ← Py.for_each add_path its (method_groups method_keys);
       Ok {| cli_doc := s;
             cli_commands := methods' ∪ {[ "meta" := meta_group doc ]} |}).
Proof.
  intros Hh. unfold header_ok in Hh.
  rewrite (field_cons "info" ["title"]), (field_cons "info" ["description"]) in Hh.
  unfold create_cli_from.
  destruct (field ["info"] doc) as [info|] eqn:Ef; [|discriminate].
  apply getitem_Ok in Ef. rewrite Ef. simpl in Hh.
  destruct info as [| | | | |i]; try discriminate.
  simpl. simpl in Hh.
  destruct (Py.assoc "title" i) as [[| | |title| |]|]; try discriminate.
  destruct (Py.assoc "description" i) as [[| | |description| |]|];
    try discriminate; simpl; eauto.
Qed.

(** The group of a method is there exactly when the method is a key. *)
Lemma method_groups_lookup (S : gset string) (m : string) :
  method_groups S !! m =
    if decide (m ∈ S)
    then Some (create_group m ("Collection of " ++ m ++ " calls"))
    else None.
Proof.
  unfold method_groups. case_decide as Hm.
  - apply elem_of_list_to_map_1.
    + rewrite <- list_fmap_compose. simpl.
      rewrite list_fmap_id. apply NoDup_elements.
    + apply list_elem_of_fmap. exists m. split; [done | by apply elem_of_elements].
  - apply not_elem_of_list_to_map_1.
    rewrite <- list_fmap_compose. simpl. rewrite list_fmap_id.
    by rewrite elem_of_elements.
Qed.


(** Symbolic execution of the two loops of [create_cli] on a document whose
    keys are known and whose operations are given by hypotheses. *)
Ltac in_keys :=
  repeat match goal with H : context [_ ∈ _] |- _ => revert H end;
  rewrite ?elem_of_union, ?elem_of_list_to_set, ?elem_of_cons, ?elem_of_nil;
  intuition congruence.

Ltac lookups :=
  rewrite ?lookup_union, ?lookup_insert, ?lookup_singleton, ?lookup_empty,
    ?method_groups_lookup.

Ltac map_ext :=
  apply map_eq; intros ?; lookups; repeat case_decide; simplify_eq;
  cbn [union_with option_union_with union create_group]; try done.

Ltac run_loops :=
  cbn [Py.values Py.items Py.keys List.map fst snd reduce_union key_set
       Py.for_each add_path add_operation mbind result_bind];
  repeat first
    [ progress cbn [mbind result_bind]
    | match goal with
      | H : operation_command ?p ?m ?o = Ok _
        |- context [operation_command ?p ?m ?o] => rewrite H
      end
    | progress lookups
    | rewrite decide_True by (done || in_keys)
    | rewrite decide_False by (done || in_keys) ].

Ltac command_names :=
  unfold add_command;
  repeat match goal with
         | H : operation_command ?p ?m ?o = Ok ?c |- context [cmd_name ?c] =>
             rewrite (operation_command_name p m o c H)
         end;
  cbn [create_group grp_name grp_doc grp_commands].

(** C3.  For a document whose operations are exactly GET /a, GET /b and
    POST /a, in whatever order the document lists them, the root of the
    synthesized tree holds, besides [meta], one group [get] with exactly the
    leaves [/a] and [/b] and one group [post] with exactly the leaf [/a];
    each group is documented by [Collection of <method> calls], and every
    group is stored under its own name. *)
Theorem create_cli_groups_by_method
    (doc a_get a_post b_get : value) (paths oa : list (string * value))
    (ca_get ca_post cb_get : command) :
  header_ok doc = true ->
  field ["paths"] doc = Some (VDict paths) ->
  paths ≡ₚ [("/a", VDict oa); ("/b", VDict [("get", b_get)])] ->
  oa ≡ₚ [("get", a_get); ("post", a_post)] ->
  operation_command "/a" "get" a_get = Ok ca_get ->
  operation_command "/a" "post" a_post = Ok ca_post ->
  operation_command "/b" "get" b_get = Ok cb_get ->
  exists c,
    create_cli (Ok doc) = Ok c /\
    cli_commands c =
      {[ "get" := {| grp_name := "get"; grp_doc := "Collection of get calls";
                     grp_commands := {[ "/a" := ca_get; "/b" := cb_get ]} |};
         "post" := {| grp_name := "post"; grp_doc := "Collection of post calls";
                      grp_commands := {[ "/a" := ca_post ]} |};
         "meta" := meta_group doc ]} /\
    (forall k g, cli_commands c !! k = Some g -> grp_name g = k).
Proof.
  intros Hh Hp Hperm Hoa H1 H2 H3.
  destruct (create_cli_from_header doc Hh) as [s Hs].
  apply getitem_Ok in Hp.
  unfold create_cli. cbn [mbind result_bind]. rewrite Hs, Hp. clear Hs Hp.
  symmetry in Hperm, Hoa.
  apply Permutation_length_2_inv in Hperm as [->| ->];
    apply Permutation_length_2_inv in Hoa as [->| ->].
  all: eexists; split; [ run_loops; reflexivity |].
  all: cbn [cli_commands]; command_names.
  all: match goal with
       | |- ?m = ?m' /\ _ =>
           assert (Hm : m = m');
           [ map_ext; try (f_equal; f_equal; map_ext); try (exfalso; in_keys)
           | rewrite Hm; clear Hm; split; [reflexivity|] ]
       end.
  all: intros k g Hk;
       repeat (apply lookup_insert_Some in Hk as [[<- <-]|[_ Hk]]; [reflexivity|]);
       apply lookup_singleton_Some in Hk as [<- <-]; reflexivity.
Qed.

(** ** Parameter Binder: options *)

Lemma convert_has_type (t : py_type) (v : value) :
  Click.has_type t v = true -> Click.convert t v = Some v.
Proof. unfold Click.convert. by intros ->. Qed.

Lemma has_type_not_None (t : py_type) (v : value) :
  Click.has_type t v = true -> v <> VNone.
Proof. intros H ->. by destruct t. Qed.

(** C1.  A parameter whose schema has a default [D] (of the shape of the
    schema's type, as the data model requires) and which has no [required]
    key yields an option declared with [required=True] and [default=D];
    such an option left off the command line is accepted by click, and the
    value bound to it is [D]: the command of an operation with this one
    parameter, run without options, calls [func] with [D] under the
    option's keyword. *)
Theorem default_makes_option_optional
    (p schema : list (string * value)) (name D : value) (t : py_type) :
  Py.assoc "name" p = Some name ->
  Py.assoc "schema" p = Some (VDict schema) ->
  Py.assoc "default" schema = Some D ->
  Py.assoc "required" p = None ->
  str_to_type (default (VStr "string") (Py.assoc "type" schema)) = Ok t ->
  Click.has_type t D = true ->
  Click.isidentifier (Click.normalise (PyStr.str name)) = true ->
  Click.help_ok (default VNone (Py.assoc "description" p)) = true ->
  exists o,
    parameter_option (VDict p) = Ok o /\
    Click.opt_flag o = "--" ++ PyStr.str name /\
    Click.opt_default o = D /\
    Click.opt_required o = VBool true /\
    Click.unset_value o = Some (Ok D) /\
    (forall rest given kwargs,
        given !! Click.opt_name o = None ->
        Click.bind_options (o :: rest) given kwargs
        = Click.bind_options rest given (<[Click.opt_name o := D]> kwargs)) /\
    (forall method path documentation,
        exists cmd,
          create_command method path documentation (VList [VDict p]) = Ok cmd /\
          Click.bind_options (cmd_params cmd) ∅ ∅
          = Some (Ok {[ Click.opt_name o := D ]})).
Proof.
  intros Hname Hschema Hdefault Hrequired Htype Hshape Hident Hhelp.
  assert (Hopt : exists o,
             parameter_option (VDict p) = Ok o /\
             Click.opt_flag o = "--" ++ PyStr.str name /\
             Click.opt_default o = D /\
             Click.opt_required o = VBool true /\
             Click.unset_value o = Some (Ok D)).
  2:{ destruct Hopt as (o & Ho & Hflag & Hdef & Hreq & Hu).
      exists o. repeat split; try done.
      - intros rest given kwargs Hgiven.
        cbn [Click.bind_options]. by rewrite Hgiven, Hu.
      - intros method path documentation. unfold create_command, add_parameters.
        cbn [Py.iter Py.map_each mbind result_bind]. rewrite Ho.
        cbn [mbind result_bind]. eexists. split; [reflexivity|].
        cbn [cmd_params rev app Click.bind_options].
        by rewrite lookup_empty, Hu. }
  unfold parameter_option, Py.getitem, Py.get.
  rewrite Hname, Hschema, Hrequired. cbn [mbind result_bind].
  rewrite Hdefault. cbn [mbind result_bind].
  assert (Ht : match Py.assoc "type" schema with
               | Some x => Ok x
               | None => Ok (VStr "string")
               end = Ok (default (VStr "string") (Py.assoc "type" schema)))
    by (by destruct (Py.assoc "type" schema)).
  rewrite Ht. cbn [mbind result_bind]. rewrite Htype. cbn [mbind result_bind].
  assert (Hd : match Py.assoc "description" p with
               | Some x => Ok x
               | None => Ok VNone
               end = Ok (default VNone (Py.assoc "description" p)))
    by (by destruct (Py.assoc "description" p)).
  rewrite Hd. cbn [mbind result_bind].
  unfold Click.option. rewrite Hhelp, Hident. cbn [negb].
  set (help := default VNone (Py.assoc "description" p)).
  set (o := {| Click.opt_name := Click.normalise (PyStr.str name);
               Click.opt_flag := "--" ++ PyStr.str name;
               Click.opt_help := help;
               Click.opt_default := D;
               Click.opt_required := VBool true;
               Click.opt_type := t |}).
  assert (Hu : Click.unset_value o = Some (Ok D)).
  { pose proof (has_type_not_None t D Hshape) as Hn.
    pose proof (convert_has_type t D Hshape) as Hc.
    unfold Click.unset_value. cbn [o Click.opt_default Click.opt_type].
    destruct D; try done; rewrite Hc; reflexivity. }
  exists o. by repeat split.
Qed.

(** ** Invoker *)

(** C6.  Once the request is built, the response decides nothing: whatever
    its status code, [func] prints its body and returns, and the process
    exits with status 0.  The command fails when [httpx.request] itself
    raises, with that exception. *)
Theorem status_code_is_not_a_failure
    (httpx_request : request -> result response)
    (method path : string) (parameters : value) (kwargs : gmap string value)
    (req : request) :
  func_request method path parameters kwargs = Ok req ->
  (forall resp,
      httpx_request req = Ok resp ->
      func httpx_request method path parameters kwargs = Ok (text resp ++ Py.nl) /\
      exit_status (func httpx_request method path parameters kwargs) = 0) /\
  (forall e,
      httpx_request req = Raise e ->
      func httpx_request method path parameters kwargs = Raise e /\
      exit_status (func httpx_request method path parameters kwargs) <> 0).
Proof.
  intros Hreq. unfold func. rewrite Hreq. cbn [mbind result_bind].
  split.
  - intros resp ->. split; reflexivity.
  - intros e ->. split; [reflexivity | apply exit_status_Raise].
Qed.

(** ** Path Templater: an unset optional path parameter *)

(** X20.  A path parameter with [required: false] and no default in its
    schema, the only parameter of its operation, with a name click passes on
    unchanged (a lower-case identifier), gives an option that click binds to
    [None] when it is left off the command line; [func] then puts
    [str(None)], the text [None], in the place of [{name}] and sends no
    query parameter for it. *)
Theorem optional_path_parameter_renders_None
    (httpx_request : request -> result response) (environ : gmap string string)
    (method path documentation n : string) (p schema : list (string * value))
    (t : py_type) :
  Py.assoc "name" p = Some (VStr n) ->
  Py.assoc "in" p = Some (VStr "path") ->
  Py.assoc "required" p = Some (VBool false) ->
  Py.assoc "schema" p = Some (VDict schema) ->
  Py.assoc "default" schema = None ->
  str_to_type (default (VStr "string") (Py.assoc "type" schema)) = Ok t ->
  Click.isidentifier n = true ->
  Click.normalise n = n ->
  Click.help_ok (default VNone (Py.assoc "description" p)) = true ->
  let req := {| req_method := Str.upper method;
                req_url := BASE_URL ++ Str.replace ("{" ++ n ++ "}") "None" path;
                req_params := ∅ |} in
  exists cmd,
    create_command method path documentation (VList [VDict p]) = Ok cmd /\
    Click.bind_options (cmd_params cmd) ∅ ∅ = Some (Ok {[ n := VNone ]}) /\
    func_request method path (VList [VDict p]) {[ n := VNone ]} = Ok req /\
    invoke httpx_request environ cmd ∅
    = Some (resp ← httpx_request req; Ok (print (text resp))).
Proof.
  intros Hname Hin Hrequired Hschema Hdefault Htype Hident Hnorm Hhelp req.
  assert (Ht : match Py.assoc "type" schema with
               | Some x => Ok x
               | None => Ok (VStr "string")
               end = Ok (default (VStr "string") (Py.assoc "type" schema)))
    by (by destruct (Py.assoc "type" schema)).
  assert (Hreq : func_request method path (VList [VDict p]) {[ n := VNone ]} = Ok req).
  { unfold func_request. cbn [Py.iter mbind result_bind Py.for_each].
    unfold template_step, Py.getitem. rewrite Hin. cbn [mbind result_bind Py.eq_str].
    rewrite String.eqb_refl, Hname. cbn [mbind result_bind Py.add].
    rewrite lookup_singleton_eq. cbn [mbind result_bind PyStr.str PyStr.repr].
    rewrite delete_singleton_eq. reflexivity. }
  unfold create_command, add_parameters.
  cbn [Py.iter mbind result_bind Py.map_each].
  unfold parameter_option, Py.getitem, Py.get.
  rewrite Hname, Hschema, Hrequired. cbn [mbind result_bind].
  rewrite Hdefault. cbn [mbind result_bind].
  rewrite Ht. cbn [mbind result_bind]. rewrite Htype. cbn [mbind result_bind].
  assert (Hd : match Py.assoc "description" p with
               | Some x => Ok x
               | None => Ok VNone
               end = Ok (default VNone (Py.assoc "description" p)))
    by (by destruct (Py.assoc "description" p)).
  rewrite Hd. cbn [mbind result_bind].
  unfold Click.option. cbn [PyStr.str]. rewrite Hhelp, Hnorm, Hident. cbn [negb].
  eexists. split; [reflexivity|]. split; [|split; [exact Hreq|]].
  - cbn [cmd_params rev app Click.bind_options Click.opt_name].
    rewrite lookup_empty. reflexivity.
  - unfold invoke.
    cbn [cmd_params rev app Click.bind_options Click.opt_name].
    rewrite lookup_empty.
    cbn [Click.unset_value Click.opt_default Click.opt_required Py.truthy
         cmd_callback run_callback].
    unfold func.
    change (<[n:=VNone]> ∅) with ({[ n := VNone ]} : gmap string value).
    rewrite Hreq. reflexivity.
Qed.

(** C9, the code at the failing input.  The operation GET /users/{userId}
    has the one path parameter [userId], with [required: false] and no
    default.  Run without the option, click binds [None] under the keyword
    [userid]; [func] looks up [userId] and raises [KeyError]: no [None] is
    put into the path and no request is sent. *)
Lemma optional_renamed_path_parameter_raises :
  exists cmd,
    create_command "get" "/users/{userId}" "" (VList [optional_user_id_parameter])
    = Ok cmd /\
    Click.bind_options (cmd_params cmd) ∅ ∅ = Some (Ok {[ "userid" := VNone ]}) /\
    func_request "get" "/users/{userId}" (VList [optional_user_id_parameter])
      {[ "userid" := VNone ]}
    = Raise (KeyError "userId") /\
    invoke (always not_found) ∅ cmd ∅ = Some (Raise (KeyError "userId")) /\
    exit_status (@Raise string (KeyError "userId")) = 1.
Proof.
  eexists. split; [reflexivity|]. repeat split; reflexivity.
Qed.

(** ** Facts on [str.replace] *)

Section Replace.

Local Open Scope nat_scope.

Lemma append_nil (s : string) : "" ++ s = s.
Proof. reflexivity. Qed.

Lemma append_cons (x : ascii) (a b : string) : String x a ++ b = String x (a ++ b).
Proof. reflexivity. Qed.

Lemma append_assoc (a b c : string) : (a ++ b) ++ c = a ++ (b ++ c).
Proof.
  induction a as [|x a IH]; [done|]. rewrite !append_cons. by f_equal.
Qed.

Lemma placeholder_cons (n : string) : placeholder n = String "{" (n ++ "}").
Proof. reflexivity. Qed.

Lemma mem_append (x : ascii) (a b : string) :
  Str.mem x (a ++ b) = Str.mem x a || Str.mem x b.
Proof.
  induction a as [|y a IH]; [done|].
  rewrite append_cons. cbn [Str.mem]. rewrite IH. by rewrite orb_assoc.
Qed.

Lemma prefixb_length (p s : string) :
  Str.prefixb p s = true -> String.length p <= String.length s.
Proof.
  revert s. induction p as [|a p IH]; intros [|b s]; simpl; try done; try lia.
  destruct (Ascii.eqb a b); [|done]. intros H. apply IH in H. lia.
Qed.

(** A pattern without [{] that starts before a [{] ends before it. *)
Lemma prefixb_stops (body pre rest : string) :
  Str.mem "{" body = false ->
  Str.prefixb body (pre ++ String "{" rest) = Str.prefixb body pre.
Proof.
  revert pre. induction body as [|b body IH]; intros pre Hb.
  - by destruct pre.
  - cbn [Str.mem] in Hb. apply orb_false_iff in Hb as [Hb Hbody].
    destruct pre as [|c pre]; rewrite ?append_cons, ?append_nil;
      cbn [Str.prefixb].
    + by rewrite Hb.
    + destruct (Ascii.eqb b c); [by apply IH | done].
Qed.

Lemma brace_free_mem (s : string) :
  Str.brace_free s = true <-> Str.mem "{" s = false /\ Str.mem "}" s = false.
Proof.
  unfold Str.brace_free. rewrite andb_true_iff, !negb_true_iff. tauto.
Qed.

Lemma brace_free_cons (x : ascii) (s : string) :
  Str.brace_free (String x s) = true ->
  x <> "{"%char /\ x <> "}"%char /\ Str.brace_free s = true.
Proof.
  rewrite !brace_free_mem. cbn [Str.mem]. rewrite !orb_false_iff.
  intros [[H1 ?] [H2 ?]].
  apply Ascii.eqb_neq in H1, H2. tauto.
Qed.

(** What follows [{] in a placeholder decides which placeholder it is. *)
Lemma prefixb_name (n c rest : string) :
  Str.brace_free n = true -> Str.brace_free c = true ->
  Str.prefixb (n ++ "}") (c ++ String "}" rest) = true -> n = c.
Proof.
  revert c.
  induction n as [|a n IH]; intros [|x c] Hn Hc;
    rewrite ?append_cons, ?append_nil; cbn [Str.prefixb]; try done.
  - apply brace_free_cons in Hc as (_ & Hx & _).
    destruct (Ascii.eqb_spec "}" x) as [<-|]; done.
  - apply brace_free_cons in Hn as (_ & Ha & _).
    destruct (Ascii.eqb_spec a "}") as [->|]; done.
  - apply brace_free_cons in Hn as (_ & _ & Hn).
    apply brace_free_cons in Hc as (_ & _ & Hc).
    destruct (Ascii.eqb_spec a x) as [->|]; [|done].
    intros H. f_equal. by apply IH.
Qed.

(** Characters other than [{] are copied. *)
Lemma replace_from_copy (body new s r : string) :
  Str.mem "{" s = false ->
  Str.replace_from (String "{" body) new (s ++ r) 0
  = s ++ Str.replace_from (String "{" body) new r 0.
Proof.
  induction s as [|x s IH]; intros Hs; [done|].
  cbn [Str.mem] in Hs. apply orb_false_iff in Hs as [Hx Hs].
  rewrite !append_cons. cbn [Str.replace_from Str.prefixb].
  rewrite Ascii.eqb_sym, Hx. by rewrite IH.
Qed.

(** A placeholder of another name is copied. *)
Lemma replace_from_other (n c new post : string) :
  Str.brace_free n = true -> Str.brace_free c = true -> n <> c ->
  Str.replace_from (placeholder n) new (placeholder c ++ post) 0
  = placeholder c ++ Str.replace_from (placeholder n) new post 0.
Proof.
  intros Hn Hc Hne. rewrite !placeholder_cons, !append_cons.
  cbn [Str.replace_from Str.prefixb]. rewrite Ascii.eqb_refl.
  rewrite append_assoc, append_cons, append_nil.
  destruct (Str.prefixb (n ++ "}") (c ++ String "}" post)) eqn:Hp.
  { by apply prefixb_name in Hp. }
  f_equal.
  change (String "}" post) with ("}" ++ post).
  rewrite <- !append_assoc.
  apply (replace_from_copy (n ++ "}") new (c ++ "}") post).
  rewrite mem_append. apply brace_free_mem in Hc as [-> _]. done.
Qed.

(** The scan of a text that holds a placeholder of another name: the
    parts before and after it are scanned on their own. *)
Lemma replace_from_around (n c new pre post : string) (k : nat) :
  Str.brace_free n = true -> Str.brace_free c = true -> n <> c ->
  k <= String.length pre ->
  Str.replace_from (placeholder n) new (pre ++ placeholder c ++ post) k
  = Str.replace_from (placeholder n) new pre k
    ++ placeholder c ++ Str.replace_from (placeholder n) new post 0.
Proof.
  intros Hn Hc Hne. revert k.
  induction pre as [|x pre IH]; intros k Hk.
  - simpl in Hk. replace k with 0 by lia. rewrite append_nil.
    by apply replace_from_other.
  - rewrite append_cons. cbn [Str.replace_from]. destruct k as [|k].
    + assert (Hp : Str.prefixb (placeholder n)
                     (String x (pre ++ placeholder c ++ post))
                   = Str.prefixb (placeholder n) (String x pre)).
      { rewrite !placeholder_cons, !append_cons. cbn [Str.prefixb].
        destruct (Ascii.eqb "{" x); [|done].
        apply prefixb_stops. rewrite mem_append.
        apply brace_free_mem in Hn as [-> _]. done. }
      rewrite Hp. destruct (Str.prefixb (placeholder n) (String x pre)) eqn:Hq.
      * apply prefixb_length in Hq. simpl in Hq.
        rewrite IH by (simpl; lia). by rewrite append_assoc.
      * rewrite append_cons. f_equal. apply IH. lia.
    + apply IH. simpl in Hk. lia.
Qed.

Lemma replace_around (n c new pre post : string) :
  Str.brace_free n = true -> Str.brace_free c = true -> n <> c ->
  Str.replace (placeholder n) new (pre ++ placeholder c ++ post)
  = Str.replace (placeholder n) new pre
    ++ placeholder c ++ Str.replace (placeholder n) new post.
Proof. intros. unfold Str.replace. apply replace_from_around; auto; lia. Qed.

(** Nothing to replace, nothing changed. *)
Lemma replace_absent (old new s : string) :
  Str.occurs old s = false -> Str.replace old new s = s.
Proof.
  unfold Str.replace. induction s as [|x s IH]; [done|].
  cbn [Str.occurs Str.replace_from]. intros H.
  apply orb_false_iff in H as [-> H]. by rewrite IH.
Qed.

End Replace.

(** ** The loop of [func] *)

Lemma path_names_cons (p : value) (ps : list value) :
  path_names (p :: ps) =
    match (if is_path p then name_of p else None) with
    | Some n => n :: path_names ps
    | None => path_names ps
    end.
Proof. reflexivity. Qed.

Lemma path_names_app (l1 l2 : list value) :
  path_names (l1 ++ l2) = (path_names l1 ++ path_names l2)%list.
Proof. apply omap_app. Qed.

(** What one turn of the loop does depends on the parameter and on
    [kwargs], never on the request path: it fails, or it passes a parameter
    that is not in the path, or it substitutes and deletes, or it misses the
    key in [kwargs]. *)
Lemma template_step_cases (p : value) (kw : gmap string value) :
  (spec_ok p = false /\ exists e, forall T, template_step p (T, kw) = Raise e) \/
  (spec_ok p = true /\ is_path p = false /\
     forall T, template_step p (T, kw) = Ok (T, kw)) \/
  (exists n v, spec_ok p = true /\ is_path p = true /\ name_of p = Some n /\
     kw !! n = Some v /\
     forall T, template_step p (T, kw)
               = Ok (Str.replace (placeholder n) (PyStr.str v) T, delete n kw)) \/
  (exists n, spec_ok p = true /\ is_path p = true /\ name_of p = Some n /\
     kw !! n = None /\
     forall T, template_step p (T, kw) = Raise (KeyError n)).
Proof.
  unfold spec_ok, is_path, name_of, template_step.
  destruct p as [| | | | |d]; try (left; split; [done | by eexists]).
  cbn [field Py.getitem].
  destruct (Py.assoc "in" d) as [loc|]; [|left; split; [done | by eexists]].
  cbn [mbind result_bind].
  destruct (Py.eq_str loc "path"); [|right; left; done].
  destruct (Py.assoc "name" d) as [[| | |n| |]|];
    try (left; split; [done | by eexists]).
  cbn [mbind result_bind Py.add].
  destruct (kw !! n) as [v|] eqn:Hv; right; right.
  - left. exists n, v. done.
  - right. exists n. done.
Qed.

Lemma for_each_cons {A S : Type} (body : A -> S -> result S) (x : A) (l : list A)
    (s : S) :
  Py.for_each body (x :: l) s = body x s ≫= Py.for_each body l.
Proof. reflexivity. Qed.

Lemma for_each_app {A S : Type} (body : A -> S -> result S) (l1 l2 : list A) (s : S) :
  Py.for_each body (l1 ++ l2) s = Py.for_each body l1 s ≫= Py.for_each body l2.
Proof.
  revert s. induction l1 as [|x l1 IH]; intros s; [done|].
  rewrite <- app_comm_cons, !for_each_cons.
  destruct (body x s) as [s'|e]; [|done]. cbn [mbind result_bind]. apply IH.
Qed.

(** The loop only deletes from [kwargs]. *)
Lemma loop_only_deletes (ps : list value) (T T' : string) (kw kw' : gmap string value) :
  Py.for_each template_step ps (T, kw) = Ok (T', kw') ->
  forall k, kw !! k = None -> kw' !! k = None.
Proof.
  revert T kw. induction ps as [|p ps IH]; intros T kw H k Hk.
  - by injection H as <- <-.
  - rewrite for_each_cons in H.
    destruct (template_step_cases p kw)
      as [(_ & e & He)|[(_ & _ & He)|[(n & v & _ & _ & _ & _ & He)|(n & _ & _ & _ & _ & He)]]];
      rewrite He in H; cbn [mbind result_bind] in H; try discriminate.
    + by eapply IH.
    + eapply IH; [exact H|]. rewrite lookup_delete_None. by right.
Qed.

(** Parameters that are not in the path leave the state as it is. *)
Lemma loop_without_path (ps : list value) (st : string * gmap string value) :
  Forall (fun p => spec_ok p = true) ps -> path_names ps = [] ->
  Py.for_each template_step ps st = Ok st.
Proof.
  destruct st as [T kw]. induction ps as [|p ps IH]; intros Hok Hnames; [done|].
  apply Forall_cons in Hok as [Hp Hok]. rewrite path_names_cons in Hnames.
  rewrite for_each_cons.
  destruct (template_step_cases p kw)
    as [(Hbad & _)|[(_ & Hpath & He)|[(n & v & _ & Hpath & Hn & _)|(n & _ & Hpath & Hn & _)]]].
  - congruence.
  - rewrite He. cbn [mbind result_bind]. rewrite Hpath in Hnames. by apply IH.
  - by rewrite Hpath, Hn in Hnames.
  - by rewrite Hpath, Hn in Hnames.
Qed.

(** On a list of well-formed parameters whose path names are distinct and
    bound, the loop ends, and it has deleted the path names and nothing
    else. *)
Lemma loop_split (ps : list value) (T : string) (kw : gmap string value) :
  Forall (fun p => spec_ok p = true) ps ->
  NoDup (path_names ps) ->
  (forall n, n ∈ path_names ps -> is_Some (kw !! n)) ->
  exists T' kw',
    Py.for_each template_step ps (T, kw) = Ok (T', kw') /\
    forall k, kw' !! k = if decide (k ∈ path_names ps) then None else kw !! k.
Proof.
  revert T kw. induction ps as [|p ps IH]; intros T kw Hok Hnd Hbound.
  - exists T, kw. split; [done|]. intros k. rewrite decide_False; [done|].
    apply not_elem_of_nil.
  - apply Forall_cons in Hok as [Hp Hok].
    rewrite path_names_cons in Hnd, Hbound. rewrite path_names_cons, for_each_cons.
    destruct (template_step_cases p kw)
      as [(Hbad & _)|[(_ & Hpath & He)|[(n & v & _ & Hpath & Hn & Hv & He)
                                        |(n & _ & Hpath & Hn & Hv & _)]]].
    + congruence.
    + rewrite He, Hpath in *. cbn [mbind result_bind]. by apply IH.
    + rewrite He, Hpath, Hn in *. cbn [mbind result_bind].
      apply NoDup_cons in Hnd as [Hfresh Hnd].
      destruct (IH (Str.replace (placeholder n) (PyStr.str v) T) (delete n kw))
        as (T' & kw' & Hloop & Hkw'); [done | done | |].
      { intros m Hm. rewrite lookup_delete_ne by (intros ->; done).
        apply Hbound. by right. }
      exists T', kw'. split; [done|]. intros k. rewrite Hkw'.
      destruct (decide (k = n)) as [->|Hne].
      * rewrite decide_False by done. rewrite lookup_delete_eq.
        rewrite decide_True by left. done.
      * rewrite lookup_delete_ne by done.
        destruct (decide (k ∈ path_names ps)).
        -- rewrite decide_True by (by right). done.
        -- rewrite decide_False; [done|]. by intros [?|?]%elem_of_cons.
    + rewrite Hpath, Hn in Hbound.
      destruct (Hbound n) as [? ?]; [left | congruence].
Qed.

(** Whatever the loop returns has none of the path names left. *)
Lemma loop_removes_path_names (ps : list value) (T T' : string)
    (kw kw' : gmap string value) :
  Py.for_each template_step ps (T, kw) = Ok (T', kw') ->
  forall n, n ∈ path_names ps -> kw' !! n = None.
Proof.
  revert T kw. induction ps as [|p ps IH]; intros T kw H n Hn.
  - by apply elem_of_nil in Hn.
  - rewrite for_each_cons in H. rewrite path_names_cons in Hn.
    destruct (template_step_cases p kw)
      as [(_ & e & He)|[(_ & Hpath & He)|[(m & v & _ & Hpath & Hm & _ & He)
                                          |(m & _ & _ & _ & _ & He)]]];
      rewrite He in H; cbn [mbind result_bind] in H; try discriminate.
    + rewrite Hpath in Hn. by eapply IH.
    + rewrite Hpath, Hm in Hn. apply elem_of_cons in Hn as [->|Hn].
      * eapply loop_only_deletes; [exact H|]. apply lookup_delete_eq.
      * by eapply IH.
Qed.

(** ** Parameter Binder: the split of the bound values *)

(** X19.  Take a list of parameters that each have a location,
    whose path parameters have pairwise distinct string names, and a mapping
    that binds every one of those names.  Then the loop of [func] ends; with
    [query_values] the mapping it leaves and [path_values] what it removed,
    every key of the input is in exactly one of the two, the two together
    are the input, and the keys of [path_values] are exactly the names of
    the parameters located in the path. *)
Theorem split_partitions_bound_values
    (parameters : list value) (path : string) (kwargs : gmap string value) :
  Forall (fun p => spec_ok p = true) parameters ->
  NoDup (path_names parameters) ->
  (forall n, n ∈ path_names parameters -> is_Some (kwargs !! n)) ->
  exists request_path query_values,
    Py.for_each template_step parameters (path, kwargs)
    = Ok (request_path, query_values) /\
    let path_values := kwargs ∖ query_values in
    dom path_values = list_to_set (path_names parameters) /\
    path_values ∪ query_values = kwargs /\
    path_values ##ₘ query_values /\
    forall k, k ∈ dom kwargs ->
              ((k ∈ dom path_values) /\ (k ∉ dom query_values)) \/
              ((k ∉ dom path_values) /\ (k ∈ dom query_values)).
Proof.
  intros Hok Hnd Hbound.
  destruct (loop_split parameters path kwargs Hok Hnd Hbound)
    as (request_path & query_values & Hloop & Hq).
  exists request_path, query_values. split; [exact Hloop|]. cbn zeta.
  assert (Hdom : forall k, (k ∈ dom (kwargs ∖ query_values))
                           <-> (k ∈ path_names parameters)).
  { intros k. rewrite elem_of_dom, lookup_difference_is_Some, Hq.
    case_decide as Hk.
    - split; [done|]. intros _. split; [by apply Hbound | done].
    - split; [|done]. intros [[x Hx] Hn]. congruence. }
  assert (Hsub : query_values ⊆ kwargs).
  { apply map_subseteq_spec. intros k x. rewrite Hq. by case_decide. }
  repeat split.
  - apply set_eq. intros k. by rewrite Hdom, elem_of_list_to_set.
  - rewrite map_union_comm by (by apply map_disjoint_difference_l1).
    by apply map_difference_union.
  - by apply map_disjoint_difference_l1.
  - intros k Hk. rewrite Hdom. rewrite (elem_of_dom query_values), Hq.
    apply elem_of_dom in Hk. case_decide.
    + left. split; [done|]. by intros [? ?].
    + right. done.
Qed.

(** C4, the code at the failing input.  The operation GET /users/{userId}
    has the one path parameter [userId].  Run with [--userId 7], click binds
    the value under the keyword [userid]; [func] looks up [userId], raises
    [KeyError] and splits nothing: the command fails before a request is
    sent. *)
Lemma split_raises_on_renamed_path_parameter :
  exists cmd,
    create_command "get" "/users/{userId}" "" (VList [user_id_parameter]) = Ok cmd /\
    Click.bind_options (cmd_params cmd) {[ "userid" := VStr "7" ]} ∅
    = Some (Ok {[ "userid" := VStr "7" ]}) /\
    Py.for_each template_step [user_id_parameter]
      ("/users/{userId}", {[ "userid" := VStr "7" ]})
    = Raise (KeyError "userId") /\
    invoke (always not_found) ∅ cmd {[ "userid" := VStr "7" ]}
    = Some (Raise (KeyError "userId")) /\
    exit_status (@Raise string (KeyError "userId")) = 1.
Proof.
  eexists. split; [reflexivity|]. repeat split; reflexivity.
Qed.

(** ** Path Templater *)

Lemma render_cons (p : value) (ps : list value) (kw : gmap string value) (T : string) :
  render (p :: ps) kw T =
    match template_step p (T, kw) with
    | Ok (T1, kw1) => render ps kw1 T1
    | Raise e => Raise e
    end.
Proof.
  unfold render. rewrite for_each_cons.
  by destruct (template_step p (T, kw)) as [[T1 kw1]|e].
Qed.

(** A placeholder whose name no path parameter has splits the rendering:
    what is before it and what is after it are rendered on their own. *)
Lemma render_around (ps : list value) (kw : gmap string value) (c pre post : string) :
  Forall (fun n => Str.brace_free n = true) (path_names ps) ->
  Str.brace_free c = true ->
  c ∉ path_names ps ->
  render ps kw (pre ++ placeholder c ++ post) =
    (pre' ← render ps kw pre;
     post' ← render ps kw post;
     Ok (pre' ++ placeholder c ++ post')).
Proof.
  revert kw pre post. induction ps as [|p ps IH]; intros kw pre post Hbf Hc Hfresh.
  - reflexivity.
  - rewrite !render_cons. rewrite path_names_cons in Hbf, Hfresh.
    destruct (template_step_cases p kw)
      as [(_ & e & He)|[(_ & Hpath & He)|[(n & v & _ & Hpath & Hn & _ & He)
                                          |(n & _ & _ & _ & _ & He)]]];
      rewrite !He; try reflexivity.
    + rewrite Hpath in Hbf, Hfresh. by apply IH.
    + rewrite Hpath, Hn in Hbf, Hfresh.
      apply Forall_cons in Hbf as [Hnbf Hbf].
      apply not_elem_of_cons in Hfresh as [Hne Hfresh].
      rewrite replace_around by done. by apply IH.
Qed.

(** Whether the loop raises, and what, does not depend on the template. *)
Lemma render_error_independent (ps : list value) (kw : gmap string value)
    (T U : string) (e : exn) :
  render ps kw T = Raise e -> render ps kw U = Raise e.
Proof.
  revert kw T U. induction ps as [|p ps IH]; intros kw T U; [done|].
  rewrite !render_cons.
  destruct (template_step_cases p kw)
    as [(_ & e' & He)|[(_ & _ & He)|[(n & v & _ & _ & _ & _ & He)
                                     |(n & _ & _ & _ & _ & He)]]];
    rewrite !He; try done; apply IH.
Qed.

(** C7.  Without a parameter located in the path nothing is substituted:
    every template is rendered as itself.  And in general a placeholder
    [{c}] whose name is the name of no path parameter stands in the output
    as it stands in the template, between the renderings of what is before
    and after it; it raises nothing, for an exception of the loop is the
    same on every template.  The names are names: they hold no brace. *)
Theorem unmatched_placeholders_stay_verbatim
    (parameters : list value) (kwargs : gmap string value) :
  Forall (fun n => Str.brace_free n = true) (path_names parameters) ->
  (Forall (fun p => spec_ok p = true) parameters ->
   path_names parameters = [] ->
   forall template method,
     render parameters kwargs template = Ok template /\
     func_request method template (VList parameters) kwargs
     = Ok {| req_method := Str.upper method; req_url := BASE_URL ++ template;
             req_params := kwargs |}) /\
  (forall c pre post,
      Str.brace_free c = true ->
      c ∉ path_names parameters ->
      render parameters kwargs (pre ++ placeholder c ++ post) =
        (pre' ← render parameters kwargs pre;
         post' ← render parameters kwargs post;
         Ok (pre' ++ placeholder c ++ post'))) /\
  (forall template template' e,
      render parameters kwargs template = Raise e ->
      render parameters kwargs template' = Raise e).
Proof.
  intros Hbf. split; [|split].
  - intros Hok Hnames template method.
    unfold render, func_request. cbn [Py.iter mbind result_bind].
    by rewrite (loop_without_path parameters (template, kwargs) Hok Hnames).
  - intros c pre post Hc Hfresh. by apply render_around.
  - intros template template' e. apply render_error_independent.
Qed.

Lemma spec_ok_path (p : value) (n : string) :
  is_path p = true -> name_of p = Some n -> spec_ok p = true.
Proof.
  unfold spec_ok, is_path. intros Hpath ->.
  destruct (field ["in"] p); [|done]. by rewrite Hpath.
Qed.

(** X21.  Let [p] be a path parameter named [n], and let [{n}] not occur in
    the request path when the loop comes to [p]; this path is the template
    itself when [p] is the first of the path parameters.  Then the turn of
    [p] changes nothing in the request path and still deletes [n] from
    [kwargs]: the loop goes on as if [p] were not there and [n] had not been
    bound, and the query parameters of the request have no [n]. *)
Theorem unplaced_path_parameter_is_dropped
    (before after : list value) (p : value) (n : string) (v : value)
    (template request_path : string) (kwargs kwargs1 : gmap string value) :
  is_path p = true ->
  name_of p = Some n ->
  Py.for_each template_step before (template, kwargs) = Ok (request_path, kwargs1) ->
  kwargs1 !! n = Some v ->
  Str.occurs (placeholder n) request_path = false ->
  Py.for_each template_step (before ++ p :: after) (template, kwargs)
  = Py.for_each template_step after (request_path, delete n kwargs1) /\
  (forall method req,
      func_request method template (VList (before ++ p :: after)) kwargs = Ok req ->
      req_params req !! n = None) /\
  (Forall (fun q => spec_ok q = true) before -> path_names before = [] ->
   request_path = template /\ kwargs1 = kwargs).
Proof.
  intros Hpath Hn Hbefore Hv Hocc.
  assert (Hloop : Py.for_each template_step (before ++ p :: after) (template, kwargs)
                  = Py.for_each template_step after (request_path, delete n kwargs1)).
  { rewrite for_each_app, Hbefore. cbn [mbind result_bind]. rewrite for_each_cons.
    destruct (template_step_cases p kwargs1)
      as [(Hbad & _)|[(_ & Hpath' & _)|[(m & w & _ & _ & Hm & Hw & He)
                                          |(m & _ & _ & Hm & Hw & _)]]];
      try congruence.
    - by rewrite (spec_ok_path p n Hpath Hn) in Hbad.
    - assert (m = n) as -> by congruence.
      rewrite He. cbn [mbind result_bind]. by rewrite replace_absent. }
  split; [exact Hloop|]. split.
  - intros method req. unfold func_request. cbn [Py.iter mbind result_bind].
    rewrite Hloop.
    destruct (Py.for_each template_step after (request_path, delete n kwargs1))
      as [[T' kw']|e] eqn:Hafter; [|done].
    cbn [mbind result_bind]. intros [= <-].
    cbn [req_params]. eapply loop_only_deletes; [exact Hafter|].
    apply lookup_delete_eq.
  - intros Hok Hnames.
    rewrite (loop_without_path before _ Hok Hnames) in Hbefore.
    by injection Hbefore as <- <-.
Qed.

(** ** The theorems at work on concrete inputs *)

Lemma default_makes_option_optional_witness :
  exists o,
    parameter_option limit_parameter = Ok o /\
    Click.opt_flag o = "--" ++ "limit" /\
    Click.opt_default o = VInt 10 /\
    Click.opt_required o = VBool true /\
    Click.unset_value o = Some (Ok (VInt 10)) /\
    (forall rest given kwargs,
        given !! Click.opt_name o = None ->
        Click.bind_options (o :: rest) given kwargs
        = Click.bind_options rest given (<[Click.opt_name o := VInt 10]> kwargs)) /\
    (forall method path documentation,
        exists cmd,
          create_command method path documentation (VList [limit_parameter]) = Ok cmd /\
          Click.bind_options (cmd_params cmd) ∅ ∅
          = Some (Ok {[ Click.opt_name o := VInt 10 ]})).
Proof.
  apply (default_makes_option_optional
           [("name", VStr "limit"); ("in", VStr "query");
            ("schema", VDict [("type", VStr "integer"); ("default", VInt 10)])]
           [("type", VStr "integer"); ("default", VInt 10)]
           (VStr "limit") (VInt 10) Tint); reflexivity.
Defined.

Lemma create_cli_groups_by_method_witness :
  exists c,
    create_cli (Ok doc_abc) = Ok c /\
    cli_commands c =
      {[ "get" := {| grp_name := "get"; grp_doc := "Collection of get calls";
                     grp_commands := {[ "/a" := bare_command "get" "/a";
                                        "/b" := bare_command "get" "/b" ]} |};
         "post" := {| grp_name := "post"; grp_doc := "Collection of post calls";
                      grp_commands := {[ "/a" := bare_command "post" "/a" ]} |};
         "meta" := meta_group doc_abc ]} /\
    (forall k g, cli_commands c !! k = Some g -> grp_name g = k).
Proof.
  apply (create_cli_groups_by_method doc_abc (VDict []) (VDict []) (VDict [])
           [("/a", VDict [("get", VDict []); ("post", VDict [])]);
            ("/b", VDict [("get", VDict [])])]
           [("get", VDict []); ("post", VDict [])]);
    reflexivity.
Defined.

Lemma split_partitions_bound_values_witness :
  exists request_path query_values,
    Py.for_each template_step [id_parameter; limit_parameter]
      ("/item/{id}", {[ "id" := VInt 7; "limit" := VInt 3 ]})
    = Ok (request_path, query_values) /\
    let path_values :=
      ({[ "id" := VInt 7; "limit" := VInt 3 ]} : gmap string value) ∖ query_values in
    dom path_values = list_to_set (path_names [id_parameter; limit_parameter]) /\
    path_values ∪ query_values = {[ "id" := VInt 7; "limit" := VInt 3 ]} /\
    path_values ##ₘ query_values /\
    forall k, k ∈ dom ({[ "id" := VInt 7; "limit" := VInt 3 ]} : gmap string value) ->
              ((k ∈ dom path_values) /\ (k ∉ dom query_values)) \/
              ((k ∉ dom path_values) /\ (k ∈ dom query_values)).
Proof.
  apply (split_partitions_bound_values [id_parameter; limit_parameter]).
  - repeat constructor.
  - apply NoDup_singleton.
  - intros n Hn. apply list_elem_of_singleton in Hn as ->.
    exists (VInt 7). reflexivity.
Defined.

Lemma status_code_is_not_a_failure_witness :
  func (always not_found) "get" "/item/{id}" (VList [id_parameter]) {[ "id" := VInt 7 ]}
  = Ok (text not_found ++ Py.nl) /\
  exit_status
    (func (always not_found) "get" "/item/{id}" (VList [id_parameter])
       {[ "id" := VInt 7 ]}) = 0.
Proof.
  eapply (status_code_is_not_a_failure (always not_found)
            "get" "/item/{id}" (VList [id_parameter]) {[ "id" := VInt 7 ]}).
  - reflexivity.
  - reflexivity.
Defined.

Lemma optional_path_parameter_renders_None_witness :
  exists cmd,
    create_command "get" "/item/{id}" "" (VList [optional_id_parameter]) = Ok cmd /\
    Click.bind_options (cmd_params cmd) ∅ ∅ = Some (Ok {[ "id" := VNone ]}) /\
    func_request "get" "/item/{id}" (VList [optional_id_parameter]) {[ "id" := VNone ]}
    = Ok {| req_method := "GET"; req_url := BASE_URL ++ "/item/None";
            req_params := ∅ |} /\
    invoke (always not_found) ∅ cmd ∅ = Some (Ok (print (text not_found))).
Proof.
  apply (optional_path_parameter_renders_None (always not_found) ∅
           "get" "/item/{id}" "" "id"
           [("name", VStr "id"); ("in", VStr "path"); ("required", VBool false);
            ("schema", VDict [("type", VStr "integer")])]
           [("type", VStr "integer")] Tint); reflexivity.
Defined.

Lemma unmatched_placeholders_stay_verbatim_witness :
  render [id_parameter] {[ "id" := VInt 7 ]} ("/shop/{id}/" ++ placeholder "sku" ++ "/{id}")
  = Ok ("/shop/7/" ++ placeholder "sku" ++ "/7").
Proof.
  rewrite (proj1 (proj2 (unmatched_placeholders_stay_verbatim [id_parameter]
                           {[ "id" := VInt 7 ]} ltac:(repeat constructor)))
             "sku" "/shop/{id}/" "/{id}" eq_refl).
  - reflexivity.
  - intros Hin. apply list_elem_of_singleton in Hin. discriminate Hin.
Defined.

Lemma unplaced_path_parameter_is_dropped_witness :
  Py.for_each template_step [limit_parameter; id_parameter; user_id_parameter]
    ("/users/{userId}", {[ "id" := VInt 7; "limit" := VInt 3; "userId" := VStr "u" ]})
  = Py.for_each template_step [user_id_parameter]
      ("/users/{userId}",
       delete "id" {[ "id" := VInt 7; "limit" := VInt 3; "userId" := VStr "u" ]}) /\
  (forall method req,
      func_request method "/users/{userId}"
        (VList [limit_parameter; id_parameter; user_id_parameter])
        {[ "id" := VInt 7; "limit" := VInt 3; "userId" := VStr "u" ]} = Ok req ->
      req_params req !! "id" = None) /\
  (Forall (fun q => spec_ok q = true) [limit_parameter] ->
   path_names [limit_parameter] = [] ->
   "/users/{userId}" = "/users/{userId}" /\
   ({[ "id" := VInt 7; "limit" := VInt 3; "userId" := VStr "u" ]} : gmap string value)
   = {[ "id" := VInt 7; "limit" := VInt 3; "userId" := VStr "u" ]}).
Proof.
  apply (unplaced_path_parameter_is_dropped [limit_parameter] [user_id_parameter]
           id_parameter "id" (VInt 7)).
  - reflexivity.
  - reflexivity.
  - reflexivity.
  - reflexivity.
  - reflexivity.
Defined.

(** * Further properties of the code *)

(** ** The loop of [func] on a template of literals and placeholders *)

Section Tokens.

Local Open Scope nat_scope.

Lemma prefixb_self_app (old r : string) : Str.prefixb old (old ++ r) = true.
Proof.
  induction old as [|a old IH]; [done|].
  rewrite append_cons. cbn [Str.prefixb]. by rewrite Ascii.eqb_refl.
Qed.

Lemma replace_from_skip (old new x r : string) :
  Str.replace_from old new (x ++ r) (String.length x)
  = Str.replace_from old new r 0.
Proof.
  induction x as [|a x IH]; [done|].
  rewrite append_cons. cbn [String.length Str.replace_from]. exact IH.
Qed.

(** An occurrence at the head is replaced, and the scan goes on behind it. *)
Lemma replace_from_match (n new r : string) :
  Str.replace_from (placeholder n) new (placeholder n ++ r) 0
  = new ++ Str.replace_from (placeholder n) new r 0.
Proof.
  pose proof (prefixb_self_app (placeholder n) r) as Hp.
  rewrite placeholder_cons in *. rewrite append_cons in *.
  cbn [Str.replace_from]. rewrite Hp. f_equal.
  cbn [String.length Nat.pred]. apply replace_from_skip.
Qed.

Lemma token_ok_plug (n new : string) (t : token) :
  Str.mem "{" new = false -> token_ok t = true -> token_ok (plug n new t) = true.
Proof.
  intros Hnew Ht. destruct t as [text|k]; [done|].
  cbn [plug]. destruct (String.eqb k n); [|done].
  cbn [token_ok]. by rewrite Hnew.
Qed.

(** [str.replace] for one placeholder, on a template of tokens, plugs the
    new text into every place of that placeholder and touches nothing
    else. *)
Lemma replace_flatten (n new : string) (tokens : list token) :
  Str.brace_free n = true ->
  Forall (fun t => token_ok t = true) tokens ->
  Str.replace (placeholder n) new (flatten tokens)
  = flatten (plug n new <$> tokens).
Proof.
  intros Hn Hok. unfold Str.replace.
  induction Hok as [|t tokens Ht Hok IH]; [done|].
  cbn [flatten fmap list_fmap]. destruct t as [text|k]; cbn [token_text plug].
  - rewrite placeholder_cons.
    rewrite replace_from_copy by (by apply negb_true_iff in Ht).
    rewrite <- placeholder_cons. by rewrite IH.
  - destruct (String.eqb_spec k n) as [->|Hne].
    + rewrite replace_from_match. cbn [token_text]. by rewrite IH.
    + rewrite replace_from_other by (done || congruence).
      cbn [token_text]. by rewrite IH.
Qed.

Lemma fill_all_plug (n : string) (v : value) (names : list string)
    (kw : gmap string value) (tokens : list token) :
  kw !! n = Some v ->
  fill_all names (delete n kw) (plug n (PyStr.str v) <$> tokens)
  = fill_all (n :: names) kw tokens.
Proof.
  intros Hv. induction tokens as [|t tokens IH]; [done|].
  cbn [fill_all fmap list_fmap]. rewrite <- IH. f_equal.
  destruct t as [text|k]; [done|]. cbn [plug].
  destruct (String.eqb_spec k n) as [->|Hne]; cbn [fill].
  - rewrite bool_decide_eq_true_2 by left. by rewrite Hv.
  - rewrite lookup_delete_ne by done.
    destruct (decide (k ∈ names)) as [Hin|Hout].
    + rewrite !bool_decide_eq_true_2; [done | by right | done].
    + rewrite !bool_decide_eq_false_2; [done | | done].
      by intros [?|?]%elem_of_cons.
Qed.

(** What the loop returns on a template of tokens. *)
Lemma loop_fills (ps : list value) (kw kw' : gmap string value)
    (tokens : list token) (T' : string) :
  Forall (fun t => token_ok t = true) tokens ->
  Forall (fun n => Str.brace_free n = true) (path_names ps) ->
  (forall n v, n ∈ path_names ps -> kw !! n = Some v ->
               Str.mem "{" (PyStr.str v) = false) ->
  Py.for_each template_step ps (flatten tokens, kw) = Ok (T', kw') ->
  T' = fill_all (path_names ps) kw tokens.
Proof.
  revert kw tokens. induction ps as [|p ps IH]; intros kw tokens Hok Hbf Hval H.
  - injection H as <- <-. clear. induction tokens as [|t tokens IH]; [done|].
    cbn [flatten fill_all]. rewrite <- IH. by destruct t.
  - rewrite for_each_cons in H. rewrite path_names_cons in *.
    destruct (template_step_cases p kw)
      as [(_ & e & He)|[(_ & Hpath & He)|[(n & v & _ & Hpath & Hn & Hv & He)
                                          |(n & _ & _ & _ & _ & He)]]];
      rewrite He in H; cbn [mbind result_bind] in H; try discriminate.
    + rewrite Hpath in *. by eapply IH.
    + rewrite Hpath, Hn in *.
      apply Forall_cons in Hbf as [Hnbf Hbf].
      assert (Hopen : Str.mem "{" (PyStr.str v) = false)
        by (eapply Hval; [left | done]).
      rewrite replace_flatten in H by done.
      rewrite <- (fill_all_plug n v) by done.
      eapply IH; [| done | | exact H].
      * apply Forall_fmap. eapply Forall_impl; [exact Hok|].
        intros t Ht. by apply token_ok_plug.
      * intros m w Hm Hw. apply lookup_delete_Some in Hw as [_ Hw].
        eapply Hval; [by right | done].
Qed.

End Tokens.

(** ** A path parameter the template has no place for *)

Lemma occurs_prefix (sub s : string) :
  Str.prefixb sub s = true -> Str.occurs sub s = true.
Proof. intros H. destruct s; cbn [Str.occurs]; by rewrite H. Qed.

Lemma occurs_app_r (sub pre s : string) :
  Str.occurs sub s = true -> Str.occurs sub (pre ++ s) = true.
Proof.
  intros H. induction pre as [|a pre IH]; [done|].
  rewrite append_cons. cbn [Str.occurs]. rewrite IH. apply orb_true_r.
Qed.

(** A placeholder of the template occurs in its text. *)
Lemma hole_occurs (n : string) (tokens : list token) :
  Hole n ∈ tokens -> Str.occurs (placeholder n) (flatten tokens) = true.
Proof.
  induction tokens as [|t tokens IH]; [by intros ?%elem_of_nil|].
  intros [<-|Hin]%elem_of_cons; cbn [flatten].
  - cbn [token_text]. apply occurs_prefix, prefixb_self_app.
  - apply occurs_app_r. by apply IH.
Qed.

Lemma hole_of_plug (m n new : string) (tokens : list token) :
  Hole m ∈ plug n new <$> tokens -> Hole m ∈ tokens.
Proof.
  intros ([text|k] & Heq & Hin)%list_elem_of_fmap; [discriminate|].
  cbn [plug] in Heq. destruct (String.eqb k n); [discriminate|].
  by injection Heq as ->.
Qed.

Lemma fill_all_ext (names names' : list string) (kw kw' : gmap string value)
    (tokens : list token) :
  (forall k, Hole k ∈ tokens ->
             (k ∈ names <-> k ∈ names') /\ kw !! k = kw' !! k) ->
  fill_all names kw tokens = fill_all names' kw' tokens.
Proof.
  induction tokens as [|t tokens IH]; intros H; [done|].
  cbn [fill_all]. rewrite IH by (intros k Hk; apply H; by right). f_equal.
  destruct t as [text|k]; [done|]. cbn [fill].
  destruct (H k) as [Hin Hkw]; [by left|]. rewrite Hkw.
  destruct (decide (k ∈ names)) as [Hk|Hk].
  - by rewrite !bool_decide_eq_true_2 by tauto.
  - by rewrite !bool_decide_eq_false_2 by tauto.
Qed.

(** What the loop returns on a template of tokens, when the values that go
    into a place of the template print without [{]. *)
Lemma loop_fills_placed (ps : list value) (kw kw' : gmap string value)
    (tokens : list token) (T' : string) :
  Forall (fun t => token_ok t = true) tokens ->
  Forall (fun n => Str.brace_free n = true) (path_names ps) ->
  (forall n v, n ∈ path_names ps -> kw !! n = Some v -> Hole n ∈ tokens ->
               Str.mem "{" (PyStr.str v) = false) ->
  Py.for_each template_step ps (flatten tokens, kw) = Ok (T', kw') ->
  T' = fill_all (path_names ps) kw tokens.
Proof.
  revert kw tokens. induction ps as [|p ps IH]; intros kw tokens Hok Hbf Hval H.
  - injection H as <- <-. clear. induction tokens as [|t tokens IH]; [done|].
    cbn [flatten fill_all]. rewrite <- IH. by destruct t.
  - rewrite for_each_cons in H. rewrite path_names_cons in *.
    destruct (template_step_cases p kw)
      as [(_ & e & He)|[(_ & Hpath & He)|[(n & v & _ & Hpath & Hn & Hv & He)
                                          |(n & _ & _ & _ & _ & He)]]];
      rewrite He in H; cbn [mbind result_bind] in H; try discriminate.
    + rewrite Hpath in *. by eapply IH.
    + rewrite Hpath, Hn in *.
      apply Forall_cons in Hbf as [Hnbf Hbf].
      rewrite replace_flatten in H by done.
      rewrite <- (fill_all_plug n v) by done.
      eapply IH; [| done | | exact H].
      * apply Forall_fmap. rewrite Forall_forall in Hok. apply Forall_forall.
        intros [text|k] Hin; [by apply (Hok _ Hin)|].
        cbn [compose plug]. destruct (String.eqb_spec k n) as [->|Hne].
        -- cbn [token_ok]. rewrite (Hval n v); [done | by left | done | done].
        -- by apply (Hok _ Hin).
      * intros m w Hm Hw Hhole. apply lookup_delete_Some in Hw as [_ Hw].
        eapply Hval; [by right | done | by eapply hole_of_plug].
Qed.

(** C10, as amended.  Take a template of literal text and placeholders in
    which [{n}] does not occur, and parameters among which [p] is a path
    parameter named [n]; let every parameter have a location, the path
    parameters have distinct names without braces, each bound in [kwargs], and
    let the values of the other path parameters print without [{].  Then the
    loop ends with the request path and the query values it ends with when
    [p] is left out and [n] is not bound at all: the request path is the
    template with the other path parameters filled in, the value of [n] is put
    nowhere, and the query parameters of the request have no [n]. *)
Theorem unplaced_path_parameter_leaves_no_trace
    (before after : list value) (p : value) (n : string)
    (tokens : list token) (kwargs : gmap string value) :
  is_path p = true ->
  name_of p = Some n ->
  Str.occurs (placeholder n) (flatten tokens) = false ->
  Forall (fun t => token_ok t = true) tokens ->
  Forall (fun q => spec_ok q = true) (before ++ p :: after) ->
  NoDup (path_names (before ++ p :: after)) ->
  Forall (fun k => Str.brace_free k = true) (path_names (before ++ p :: after)) ->
  (forall k, k ∈ path_names (before ++ p :: after) -> is_Some (kwargs !! k)) ->
  (forall k v, k ∈ path_names (before ++ after) -> kwargs !! k = Some v ->
               Str.mem "{" (PyStr.str v) = false) ->
  exists request_path query_values,
    Py.for_each template_step (before ++ p :: after) (flatten tokens, kwargs)
    = Ok (request_path, query_values) /\
    Py.for_each template_step (before ++ after) (flatten tokens, delete n kwargs)
    = Ok (request_path, query_values) /\
    request_path = fill_all (path_names (before ++ after)) kwargs tokens /\
    query_values !! n = None /\
    forall method,
      func_request method (flatten tokens) (VList (before ++ p :: after)) kwargs
      = Ok {| req_method := Str.upper method; req_url := BASE_URL ++ request_path;
              req_params := query_values |}.
Proof.
  intros Hpath Hn Hocc Htok Hok Hnd Hbf Hbound Hval.
  assert (Hnames : path_names (before ++ p :: after)
                   = (path_names before ++ n :: path_names after)%list).
  { by rewrite path_names_app, path_names_cons, Hpath, Hn. }
  assert (Hnames' : path_names (before ++ after)
                    = (path_names before ++ path_names after)%list)
    by apply path_names_app.
  assert (Hhole : Hole n ∉ tokens).
  { intros Hin. apply hole_occurs in Hin. congruence. }
  assert (Hfresh : n ∉ path_names (before ++ after)).
  { rewrite Hnames in Hnd. rewrite Hnames'.
    apply NoDup_app in Hnd as (_ & Hdisj & [Hn' _]%NoDup_cons).
    intros [Hin|Hin]%elem_of_app; [|done].
    apply (Hdisj n Hin). by left. }
  assert (Hin : forall k, k ∈ path_names (before ++ p :: after)
                          <-> k = n \/ k ∈ path_names (before ++ after)).
  { intros k. rewrite Hnames, Hnames', !elem_of_app, elem_of_cons. tauto. }
  destruct (loop_split _ (flatten tokens) kwargs Hok Hnd Hbound)
    as (T & kw & Hloop & Hkw).
  assert (Hok' : Forall (fun q => spec_ok q = true) (before ++ after)).
  { apply Forall_app in Hok as [Hb [_ Ha]%Forall_cons]. by apply Forall_app. }
  assert (Hnd' : NoDup (path_names (before ++ after))).
  { rewrite Hnames in Hnd. rewrite Hnames'.
    apply NoDup_app in Hnd as (Hb & Hdisj & [_ Ha]%NoDup_cons).
    apply NoDup_app. repeat split; [done | | done].
    intros k Hk Hk'. apply (Hdisj k Hk). by right. }
  assert (Hbound' : forall k, k ∈ path_names (before ++ after) ->
                              is_Some (delete n kwargs !! k)).
  { intros k Hk. rewrite lookup_delete_ne by (intros ->; done).
    apply Hbound, Hin. by right. }
  destruct (loop_split _ (flatten tokens) (delete n kwargs) Hok' Hnd' Hbound')
    as (T1 & kw1 & Hloop' & Hkw1).
  assert (HT : T = fill_all (path_names (before ++ p :: after)) kwargs tokens).
  { eapply loop_fills_placed; [done | done | | exact Hloop].
    intros k v Hk Hv Hk'. apply (Hval k v); [|done].
    apply Hin in Hk as [->|Hk]; done. }
  assert (HT1 : T1 = fill_all (path_names (before ++ after)) (delete n kwargs) tokens).
  { eapply loop_fills_placed; [done | | | exact Hloop'].
    - rewrite Forall_forall in Hbf. apply Forall_forall. intros k Hk.
      apply Hbf, Hin. by right.
    - intros k v Hk Hv _. apply lookup_delete_Some in Hv as [_ Hv]. by eapply Hval. }
  assert (Hsame : fill_all (path_names (before ++ p :: after)) kwargs tokens
                  = fill_all (path_names (before ++ after)) kwargs tokens).
  { apply fill_all_ext. intros k Hk. split; [|done]. rewrite Hin. split; [|tauto].
    intros [->|Hk']; done. }
  assert (Hsame1 : fill_all (path_names (before ++ after)) (delete n kwargs) tokens
                   = fill_all (path_names (before ++ after)) kwargs tokens).
  { apply fill_all_ext. intros k Hk. split; [done|].
    apply lookup_delete_ne. by intros ->. }
  assert (Hkws : kw1 = kw).
  { apply map_eq. intros k. rewrite Hkw, Hkw1.
    destruct (decide (k = n)) as [->|Hne].
    - rewrite decide_False by done. rewrite lookup_delete_eq.
      rewrite decide_True; [done|]. apply Hin. by left.
    - rewrite lookup_delete_ne by done.
      destruct (decide (k ∈ path_names (before ++ after))) as [Hk|Hk].
      + rewrite decide_True; [done|]. apply Hin. by right.
      + rewrite decide_False; [done|]. rewrite Hin. tauto. }
  exists T, kw. split; [exact Hloop|]. split; [|split; [|split]].
  - rewrite Hloop'. f_equal. f_equal; [|done]. by rewrite HT, HT1, Hsame, Hsame1.
  - by rewrite HT, Hsame.
  - rewrite Hkw. rewrite decide_True; [done|]. apply Hin. by left.
  - intros method. unfold func_request. cbn [Py.iter mbind result_bind].
    by rewrite Hloop.
Qed.

Lemma unplaced_path_parameter_leaves_no_trace_witness :
  exists request_path query_values,
    Py.for_each template_step [limit_parameter; n_parameter; a_parameter]
      (flatten [Lit "/x/"; Hole "a"],
       {[ "a" := VStr "v"; "n" := VStr "5"; "limit" := VInt 3 ]})
    = Ok (request_path, query_values) /\
    Py.for_each template_step [limit_parameter; a_parameter]
      (flatten [Lit "/x/"; Hole "a"],
       delete "n" {[ "a" := VStr "v"; "n" := VStr "5"; "limit" := VInt 3 ]})
    = Ok (request_path, query_values) /\
    request_path
    = fill_all (path_names [limit_parameter; a_parameter])
        {[ "a" := VStr "v"; "n" := VStr "5"; "limit" := VInt 3 ]}
        [Lit "/x/"; Hole "a"] /\
    query_values !! "n" = None /\
    forall method,
      func_request method (flatten [Lit "/x/"; Hole "a"])
        (VList [limit_parameter; n_parameter; a_parameter])
        {[ "a" := VStr "v"; "n" := VStr "5"; "limit" := VInt 3 ]}
      = Ok {| req_method := Str.upper method; req_url := BASE_URL ++ request_path;
              req_params := query_values |}.
Proof.
  apply (unplaced_path_parameter_leaves_no_trace [limit_parameter] [a_parameter]
           n_parameter "n" [Lit "/x/"; Hole "a"]
           {[ "a" := VStr "v"; "n" := VStr "5"; "limit" := VInt 3 ]}).
  - reflexivity.
  - reflexivity.
  - reflexivity.
  - repeat constructor.
  - repeat constructor.
  - cbn. repeat constructor; rewrite ?elem_of_cons, ?elem_of_nil; intuition discriminate.
  - repeat constructor.
  - intros k Hk. cbn in Hk.
    apply elem_of_cons in Hk as [->|Hk]; [by eexists|].
    apply list_elem_of_singleton in Hk as ->. by eexists.
  - intros k v Hk Hv. cbn in Hk. apply list_elem_of_singleton in Hk as ->.
    vm_compute in Hv. by injection Hv as <-.
Defined.

(** C10, counterexample.  The template [/x/{a}] has no place for [n].  Run
    with [--a {n} --n 5], the loop first puts the value of [a], the text
    [{n}], into the path and then replaces it by the value of [n]: the request
    goes to [/x/5], where without the parameter [n] it goes to [/x/{n}].
    The value of a parameter the template has no place for is in the request
    path. *)
Lemma unplaced_value_enters_through_another_value :
  Str.occurs (placeholder "n") "/x/{a}" = false /\
  exists cmd,
    create_command "get" "/x/{a}" "" (VList [a_parameter; n_parameter]) = Ok cmd /\
    Click.bind_options (cmd_params cmd) {[ "a" := VStr "{n}"; "n" := VStr "5" ]} ∅
    = Some (Ok {[ "a" := VStr "{n}"; "n" := VStr "5" ]}) /\
    func_request "get" "/x/{a}" (VList [a_parameter; n_parameter])
      {[ "a" := VStr "{n}"; "n" := VStr "5" ]}
    = Ok {| req_method := "GET"; req_url := BASE_URL ++ "/x/5"; req_params := ∅ |} /\
    func_request "get" "/x/{a}" (VList [a_parameter]) {[ "a" := VStr "{n}" ]}
    = Ok {| req_method := "GET"; req_url := BASE_URL ++ "/x/{n}"; req_params := ∅ |}.
Proof.
  split; [reflexivity|]. eexists. split; [reflexivity|].
  repeat split; vm_compute; reflexivity.
Qed.

(** X1.  On a template made of literals without [{] and of placeholders, with
    path parameters that are well formed, distinct, bound, and whose values
    print without [{], the replacements the loop makes one after the other
    are one simultaneous substitution: each placeholder of a path parameter
    gives way to the text of its value, as it is, and every other token stays
    as it is. *)
Theorem render_is_simultaneous_substitution
    (parameters : list value) (kwargs : gmap string value) (tokens : list token) :
  Forall (fun p => spec_ok p = true) parameters ->
  NoDup (path_names parameters) ->
  (forall n, n ∈ path_names parameters -> is_Some (kwargs !! n)) ->
  Forall (fun t => token_ok t = true) tokens ->
  Forall (fun n => Str.brace_free n = true) (path_names parameters) ->
  (forall n v, n ∈ path_names parameters -> kwargs !! n = Some v ->
               Str.mem "{" (PyStr.str v) = false) ->
  render parameters kwargs (flatten tokens)
  = Ok (fill_all (path_names parameters) kwargs tokens).
Proof.
  intros Hok Hnd Hbound Htok Hbf Hval.
  destruct (loop_split parameters (flatten tokens) kwargs Hok Hnd Hbound)
    as (T' & kw' & Hloop & _).
  unfold render. rewrite Hloop. cbn [fmap result_fmap fst]. f_equal.
  by eapply loop_fills.
Qed.

Lemma render_is_simultaneous_substitution_witness :
  render [id_parameter; user_id_parameter]
    {[ "id" := VInt 42; "userId" := VStr "a b/c" ]}
    (flatten [Lit "/items/"; Hole "id"; Lit "/of/"; Hole "userId"; Lit "/";
              Hole "tag"])
  = Ok "/items/42/of/a b/c/{tag}".
Proof.
  rewrite (render_is_simultaneous_substitution [id_parameter; user_id_parameter]
             {[ "id" := VInt 42; "userId" := VStr "a b/c" ]}
             [Lit "/items/"; Hole "id"; Lit "/of/"; Hole "userId"; Lit "/";
              Hole "tag"]).
  - vm_compute. reflexivity.
  - repeat constructor.
  - apply NoDup_cons. split; [|apply NoDup_singleton].
    intros H. apply list_elem_of_singleton in H. discriminate H.
  - intros n Hn. apply elem_of_cons in Hn as [->|Hn]; [by eexists|].
    apply list_elem_of_singleton in Hn as ->. by eexists.
  - repeat constructor.
  - repeat constructor.
  - intros n v Hn Hv. apply elem_of_cons in Hn as [->|Hn].
    + injection Hv as <-. reflexivity.
    + apply list_elem_of_singleton in Hn as ->. injection Hv as <-. reflexivity.
Defined.

(** ** Exactly when the loop of [func] ends *)

Lemma loop_ends_inv (ps : list value) (T T' : string) (kw kw' : gmap string value) :
  Py.for_each template_step ps (T, kw) = Ok (T', kw') ->
  Forall (fun p => spec_ok p = true) ps /\
  NoDup (path_names ps) /\
  (forall n, n ∈ path_names ps -> is_Some (kw !! n)).
Proof.
  revert T kw. induction ps as [|p ps IH]; intros T kw H.
  - repeat split; [constructor | constructor |].
    intros n Hn. by apply elem_of_nil in Hn.
  - rewrite for_each_cons in H. rewrite path_names_cons.
    destruct (template_step_cases p kw)
      as [(_ & e & He)|[(Hok & Hpath & He)|[(n & v & Hok & Hpath & Hn & Hv & He)
                                            |(n & _ & _ & _ & _ & He)]]];
      rewrite He in H; cbn [mbind result_bind] in H; try discriminate.
    + rewrite Hpath. destruct (IH _ _ H) as (Hall & Hnd & Hbound).
      repeat split; [by constructor | done | done].
    + rewrite Hpath, Hn. destruct (IH _ _ H) as (Hall & Hnd & Hbound).
      repeat split; [by constructor | |].
      * apply NoDup_cons. split; [|done].
        intros Hin. destruct (Hbound n Hin) as [w Hw].
        by rewrite lookup_delete_eq in Hw.
      * intros m [->|Hm]%elem_of_cons; [by eexists|].
        destruct (Hbound m Hm) as [w Hw].
        apply lookup_delete_Some in Hw as [_ Hw]. by eexists.
Qed.

(** X2.  The loop of [func] ends without an exception exactly when every
    parameter has a location, the path parameters have string names that
    are pairwise distinct, and each of those names is a key of [kwargs]: a
    missing ["in"], a repeated path name or an unbound path name each makes
    the command fail before any request is sent. *)
Theorem loop_ends_exactly_when_well_bound
    (parameters : list value) (template : string) (kwargs : gmap string value) :
  (exists request_path query_values,
      Py.for_each template_step parameters (template, kwargs)
      = Ok (request_path, query_values))
  <->
  (Forall (fun p => spec_ok p = true) parameters /\
   NoDup (path_names parameters) /\
   (forall n, n ∈ path_names parameters -> is_Some (kwargs !! n))).
Proof.
  split.
  - intros (T' & kw' & H). by eapply loop_ends_inv.
  - intros (Hok & Hnd & Hbound).
    destruct (loop_split parameters template kwargs Hok Hnd Hbound)
      as (T' & kw' & H & _).
    by exists T', kw'.
Qed.

(** ** A required option that is not given *)

(** The version-independent binding is part of both versions. *)
Lemma unset_value_at_extends (click : Click.version) (o : Click.option_decl)
    (r : result value) :
  Click.unset_value o = Some r -> Click.unset_value_at click o = Some r.
Proof.
  unfold Click.unset_value, Click.unset_value_at.
  destruct (Click.opt_default o); try done.
  by destruct (Py.truthy (Click.opt_required o)).
Qed.

Lemma bind_options_at_extends (click : Click.version)
    (params : list Click.option_decl) (given kwargs : gmap string value)
    (r : result (gmap string value)) :
  Click.bind_options params given kwargs = Some r ->
  Click.bind_options_at click params given kwargs = Some r.
Proof.
  revert kwargs. induction params as [|o params IH]; intros kwargs H; [done|].
  cbn [Click.bind_options Click.bind_options_at] in *.
  destruct (given !! Click.opt_name o) as [x|]; [by apply IH|].
  destruct (Click.unset_value o) as [u|] eqn:Hu; [|done].
  rewrite (unset_value_at_extends click o u Hu).
  destruct u as [x|e]; [by apply IH | done].
Qed.

(** What [invoke] settles holds under either version of click. *)
Lemma invoke_at_extends (httpx_request : request -> result response)
    (environ : gmap string string) (click : Click.version)
    (cmd : command) (given : gmap string value) (r : result string) :
  invoke httpx_request environ cmd given = Some r ->
  invoke_at httpx_request environ click cmd given = Some r.
Proof.
  unfold invoke, invoke_at.
  destruct (Click.bind_options (cmd_params cmd) given ∅) as [b|] eqn:Hb; [|done].
  by rewrite (bind_options_at_extends click _ _ _ b Hb).
Qed.

(** X3.  A parameter without a default in its schema and with no [required]
    key, or a true one, gives an option declared with [required=True] and
    [default=None].  What happens when the command is run without it depends
    on the click that is installed, and the program pins none: under click up
    to 8.2 the command is refused with [MissingParameter] for that option,
    exit status 2, before anything is sent; under click from 8.3 on the
    required flag has no effect, and [func] runs with [None] bound to the
    option. *)
Theorem required_option_without_default_depends_on_click
    (httpx_request : request -> result response) (environ : gmap string string)
    (method path documentation : string) (p schema : list (string * value))
    (name : value) (t : py_type) :
  Py.assoc "name" p = Some name ->
  Py.assoc "schema" p = Some (VDict schema) ->
  default VNone (Py.assoc "default" schema) = VNone ->
  Py.truthy (default (VBool true) (Py.assoc "required" p)) = true ->
  str_to_type (default (VStr "string") (Py.assoc "type" schema)) = Ok t ->
  Click.isidentifier (Click.normalise (PyStr.str name)) = true ->
  Click.help_ok (default VNone (Py.assoc "description" p)) = true ->
  exists cmd,
    create_command method path documentation (VList [VDict p]) = Ok cmd /\
    invoke_at httpx_request environ Click.Before_8_3 cmd ∅
    = Some (Raise (MissingParameter (Click.normalise (PyStr.str name)))) /\
    exit_status (@Raise string (MissingParameter (Click.normalise (PyStr.str name))))
    = 2%Z /\
    invoke_at httpx_request environ Click.From_8_3 cmd ∅
    = Some (func httpx_request method path (VList [VDict p])
              {[ Click.normalise (PyStr.str name) := VNone ]}).
Proof.
  intros Hname Hschema Hdefault Hrequired Htype Hident Hhelp.
  unfold create_command, add_parameters.
  cbn [Py.iter Py.map_each mbind result_bind].
  unfold parameter_option, Py.getitem, Py.get.
  rewrite Hname, Hschema. cbn [mbind result_bind].
  assert (Hd : match Py.assoc "description" p with
               | Some x => Ok x
               | None => Ok VNone
               end = Ok (default VNone (Py.assoc "description" p)))
    by (by destruct (Py.assoc "description" p)).
  assert (Hf : match Py.assoc "default" schema with
               | Some x => Ok x
               | None => Ok VNone
               end = Ok VNone).
  { destruct (Py.assoc "default" schema); simpl in Hdefault; by subst. }
  assert (Hr : match Py.assoc "required" p with
               | Some x => Ok x
               | None => Ok (VBool true)
               end = Ok (default (VBool true) (Py.assoc "required" p)))
    by (by destruct (Py.assoc "required" p)).
  assert (Ht : match Py.assoc "type" schema with
               | Some x => Ok x
               | None => Ok (VStr "string")
               end = Ok (default (VStr "string") (Py.assoc "type" schema)))
    by (by destruct (Py.assoc "type" schema)).
  rewrite Hd, Hf, Hr, Ht. cbn [mbind result_bind].
  rewrite Htype. cbn [mbind result_bind].
  unfold Click.option. rewrite Hhelp, Hident. cbn [negb mbind result_bind].
  eexists. split; [reflexivity|].
  unfold invoke_at.
  cbn [cmd_params cmd_callback rev app Click.bind_options_at Click.opt_name].
  rewrite lookup_empty.
  cbn [Click.unset_value_at Click.opt_default Click.opt_required Click.opt_name].
  rewrite Hrequired. by repeat split.
Qed.

Lemma required_option_without_default_depends_on_click_witness :
  exists cmd,
    create_command "get" "/item/{id}" "" (VList [id_parameter]) = Ok cmd /\
    invoke_at (always not_found) ∅ Click.Before_8_3 cmd ∅
    = Some (Raise (MissingParameter "id")) /\
    exit_status (@Raise string (MissingParameter "id")) = 2%Z /\
    invoke_at (always not_found) ∅ Click.From_8_3 cmd ∅
    = Some (func (always not_found) "get" "/item/{id}" (VList [id_parameter])
              {[ "id" := VNone ]}).
Proof.
  apply (required_option_without_default_depends_on_click (always not_found) ∅
           "get" "/item/{id}" ""
           [("name", VStr "id"); ("in", VStr "path"); ("required", VBool true);
            ("schema", VDict [("type", VStr "integer")])]
           [("type", VStr "integer")] (VStr "id") Tint); reflexivity.
Defined.

(** ** The tree [create_cli] builds, for any document *)

Lemma elem_of_map {A B : Type} (f : A -> B) (l : list A) (y : B) :
  y ∈ List.map f l <-> exists x, y = f x /\ x ∈ l.
Proof.
  rewrite list_elem_of_In, in_map_iff.
  split; intros (x & H1 & H2); exists x; [by apply list_elem_of_In in H2|].
  by apply list_elem_of_In in H2.
Qed.

Lemma key_set_Ok (obj : value) (S : gset string) :
  key_set obj = Ok S -> exists d, obj = VDict d /\ S = list_to_set (List.map fst d).
Proof. destruct obj; try discriminate. intros [= <-]. eauto. Qed.

Lemma union_loop_Ok (objs : list value) (acc S : gset string) :
  Py.for_each (fun obj acc => s ← key_set obj; Ok (acc ∪ s)) objs acc = Ok S ->
  Forall (fun o => exists d, o = VDict d) objs /\
  forall k, k ∈ S <-> k ∈ acc \/ exists d, VDict d ∈ objs /\ k ∈ List.map fst d.
Proof.
  revert acc. induction objs as [|o objs IH]; intros acc H.
  - injection H as <-. split; [constructor|]. intros k. split; [by left|].
    intros [Hk|(d & Hd & _)]; [done | by apply elem_of_nil in Hd].
  - rewrite for_each_cons in H. apply bind_inv_Ok in H as (acc' & Hs & H).
    apply bind_inv_Ok in Hs as (s & Hs & [= <-]).
    apply key_set_Ok in Hs as (d & -> & ->).
    destruct (IH _ H) as [Hall Hk]. split; [constructor; eauto|].
    intros k. rewrite Hk, elem_of_union, elem_of_list_to_set. split.
    + intros [[Hin|Hin]|(d' & Hd' & Hin)]; [by left | right | right].
      * exists d. split; [apply elem_of_cons; by left | done].
      * exists d'. split; [apply elem_of_cons; by right | done].
    + intros [Hin|(d' & [Hd'|Hd']%elem_of_cons & Hin)].
      * by left; left.
      * injection Hd' as ->. by left; right.
      * right. by exists d'.
Qed.

Lemma reduce_union_Ok (objs : list value) (S : gset string) :
  reduce_union objs = Ok S ->
  Forall (fun o => exists d, o = VDict d) objs /\
  forall k, k ∈ S <-> exists d, VDict d ∈ objs /\ k ∈ List.map fst d.
Proof.
  destruct objs as [|o objs]; [discriminate|]. unfold reduce_union. intros H.
  apply bind_inv_Ok in H as (s & Hs & H).
  apply key_set_Ok in Hs as (d & -> & ->).
  apply union_loop_Ok in H as [Hall Hk]. split; [constructor; eauto|].
  intros k. rewrite Hk, elem_of_list_to_set. split.
  - intros [Hin|(d' & Hd' & Hin)].
    + exists d. split; [apply elem_of_cons; by left | done].
    + exists d'. split; [apply elem_of_cons; by right | done].
  - intros (d' & [Hd'|Hd']%elem_of_cons & Hin).
    + injection Hd' as ->. by left.
    + right. by exists d'.
Qed.

Lemma operations_cons (item : string * value) (paths : list (string * value)) :
  operations (item :: paths) =
    (match snd item with
     | VDict ops => List.map (fun op => (fst item, fst op, snd op)) ops
     | _ => []
     end ++ operations paths)%list.
Proof. reflexivity. Qed.

Lemma elem_of_operations (paths : list (string * value)) (p m : string) (mobj : value) :
  (p, m, mobj) ∈ operations paths <->
  exists ops, (p, VDict ops) ∈ paths /\ (m, mobj) ∈ ops.
Proof.
  induction paths as [|[p' obj] paths IH].
  - split; [by intros ?%elem_of_nil | by intros (? & ?%elem_of_nil & _)].
  - rewrite operations_cons, elem_of_app, IH. cbn [fst snd]. split.
    + intros [Hin|(ops & Hin & Hm)].
      * destruct obj as [| | | | |ops]; try by apply elem_of_nil in Hin.
        apply elem_of_map in Hin as ([m' mobj'] & [= -> -> ->] & Hin).
        exists ops. split; [apply elem_of_cons; by left | done].
      * exists ops. split; [apply elem_of_cons; by right | done].
    + intros (ops & [Hin|Hin]%elem_of_cons & Hm).
      * injection Hin as <- <-. left.
        apply elem_of_map. by exists (m, mobj).
      * right. by exists ops.
Qed.

(** The keys [reduce] collects are the methods of the operations. *)
Lemma method_keys_operations (paths : list (string * value)) (S : gset string) :
  reduce_union (List.map snd paths) = Ok S ->
  forall k, k ∈ S <-> exists p mobj, (p, k, mobj) ∈ operations paths.
Proof.
  intros H k. apply reduce_union_Ok in H as [_ ->]. split.
  - intros (d & Hd & Hk).
    apply elem_of_map in Hd as ([p obj] & Hobj & Hd). cbn [snd] in Hobj. subst obj.
    apply elem_of_map in Hk as ([k' mobj] & -> & Hk).
    exists p, mobj. apply elem_of_operations. by exists d.
  - intros (p & mobj & (ops & Hp & Hm)%elem_of_operations).
    exists ops. split.
    + apply elem_of_map. by exists (p, VDict ops).
    + apply elem_of_map. by exists (k, mobj).
Qed.

Lemma grouped_method_groups (S : gset string) : grouped [] (method_groups S).
Proof.
  split.
  - intros k g. rewrite method_groups_lookup. case_decide; [|discriminate].
    intros [= <-]. cbn [create_group grp_name grp_doc grp_commands].
    repeat split. intros p cmd. by rewrite lookup_empty.
  - intros p k mobj Hin. by apply elem_of_nil in Hin.
Qed.

(** One turn of the inner loop keeps the groups and adds the operation. *)
Lemma add_operation_grouped (seen : list (string * string * value)) (p m : string)
    (mobj : value) (ms ms' : gmap string group) :
  grouped seen ms ->
  add_operation p (m, mobj) ms = Ok ms' ->
  grouped (seen ++ [(p, m, mobj)]) ms' /\
  (exists cmd, operation_command p m mobj = Ok cmd) /\
  (forall k, is_Some (ms' !! k) <-> is_Some (ms !! k)).
Proof.
  intros [Hsound Hcomplete] H. unfold add_operation in H.
  apply bind_inv_Ok in H as (cmd & Hcmd & H).
  destruct (ms !! m) as [g|] eqn:Hg; [|discriminate]. injection H as <-.
  pose proof (operation_command_name _ _ _ _ Hcmd) as Hname.
  destruct (Hsound m g Hg) as (Hgn & Hgd & Hgc).
  split; [split|split].
  - intros k g' Hk. apply lookup_insert_Some in Hk as [[<- <-]|[Hne Hk]].
    + cbn [add_command grp_name grp_doc grp_commands]. repeat split; [done..|].
      intros p' cmd' Hp'. rewrite Hname in Hp'.
      apply lookup_insert_Some in Hp' as [[<- <-]|[_ Hp']].
      * exists mobj. split; [|done]. apply elem_of_app. right. by apply list_elem_of_singleton.
      * destruct (Hgc p' cmd' Hp') as (mobj' & Hin & Hc).
        exists mobj'. split; [|done]. apply elem_of_app. by left.
    + destruct (Hsound k g' Hk) as (Hn & Hd & Hc). repeat split; [done..|].
      intros p' cmd' Hp'. destruct (Hc p' cmd' Hp') as (mobj' & Hin & Hc').
      exists mobj'. split; [|done]. apply elem_of_app. by left.
  - intros p' k mobj' [Hin|Hin]%elem_of_app.
    + destruct (Hcomplete p' k mobj' Hin) as (g0 & cmd0 & Hg0 & Hc0).
      destruct (decide (k = m)) as [->|Hne].
      * rewrite Hg in Hg0. injection Hg0 as <-.
        rewrite lookup_insert_eq. exists (add_command cmd g).
        cbn [add_command grp_commands]. rewrite Hname.
        destruct (decide (p' = p)) as [->|Hp].
        -- exists cmd. split; [done|]. by rewrite lookup_insert_eq.
        -- exists cmd0. split; [done|]. by rewrite lookup_insert_ne.
      * exists g0, cmd0. split; [|done]. by rewrite lookup_insert_ne.
    + apply list_elem_of_singleton in Hin. injection Hin as -> -> ->.
      rewrite lookup_insert_eq. exists (add_command cmd g), cmd. split; [done|].
      cbn [add_command grp_commands]. by rewrite Hname, lookup_insert_eq.
  - by exists cmd.
  - intros k. destruct (decide (k = m)) as [->|Hne].
    + rewrite lookup_insert_eq, Hg. split; by eexists.
    + by rewrite lookup_insert_ne.
Qed.

Lemma inner_loop_grouped (p : string) (ops : list (string * value))
    (seen : list (string * string * value)) (ms ms' : gmap string group) :
  grouped seen ms ->
  Py.for_each (add_operation p) ops ms = Ok ms' ->
  grouped (seen ++ List.map (fun op => (p, fst op, snd op)) ops) ms' /\
  Forall (fun op => exists cmd, operation_command p (fst op) (snd op) = Ok cmd) ops /\
  (forall k, is_Some (ms' !! k) <-> is_Some (ms !! k)).
Proof.
  revert seen ms. induction ops as [|[m mobj] ops IH]; intros seen ms Hg H.
  - injection H as <-. cbn [List.map]. rewrite app_nil_r.
    split; [done|]. split; [constructor | done].
  - rewrite for_each_cons in H. apply bind_inv_Ok in H as (ms1 & H1 & H).
    destruct (add_operation_grouped _ _ _ _ _ _ Hg H1) as (Hg1 & Hcmd & Hdom1).
    destruct (IH _ _ Hg1 H) as (Hg' & Hall & Hdom').
    cbn [List.map fst snd]. rewrite <- app_assoc in Hg'.
    split; [done|]. split; [by constructor|].
    intros k. by rewrite Hdom', Hdom1.
Qed.

Lemma outer_loop_grouped (paths : list (string * value))
    (seen : list (string * string * value)) (ms ms' : gmap string group) :
  grouped seen ms ->
  Py.for_each add_path paths ms = Ok ms' ->
  grouped (seen ++ operations paths) ms' /\
  Forall (fun item => exists ops, snd item = VDict ops) paths /\
  (forall p m mobj, (p, m, mobj) ∈ operations paths ->
     exists cmd, operation_command p m mobj = Ok cmd) /\
  (forall k, is_Some (ms' !! k) <-> is_Some (ms !! k)).
Proof.
  revert seen ms. induction paths as [|[p obj] paths IH]; intros seen ms Hg H.
  - injection H as <-. cbn [operations flat_map]. rewrite app_nil_r.
    split; [done|]. split; [constructor|]. split; [|done].
    intros p m mobj Hin. by apply elem_of_nil in Hin.
  - rewrite for_each_cons in H. apply bind_inv_Ok in H as (ms1 & H1 & H).
    unfold add_path in H1. apply bind_inv_Ok in H1 as (ops & Hops & H1).
    destruct obj as [| | | | |ops']; try discriminate. injection Hops as ->.
    destruct (inner_loop_grouped _ _ _ _ _ Hg H1) as (Hg1 & Hcmds & Hdom1).
    destruct (IH _ _ Hg1 H) as (Hg' & Hall & Hcmds' & Hdom').
    rewrite operations_cons. cbn [fst snd]. rewrite <- app_assoc in Hg'.
    split; [done|]. split; [constructor; cbn [snd]; eauto|]. split.
    + intros p' m mobj [Hin|Hin]%elem_of_app; [|by apply Hcmds'].
      apply elem_of_map in Hin as ([m' mobj'] & [= -> -> ->] & Hin).
      rewrite Forall_forall in Hcmds. by apply (Hcmds (m', mobj')).
    + intros k. by rewrite Hdom', Hdom1.
Qed.

(** A tree that [create_cli_from] returns was built by the two loops from
    the groups of the method keys. *)
Lemma create_cli_from_Ok (doc : value) (c : cli) :
  create_cli_from doc = Ok c ->
  exists paths S ms,
    field ["paths"] doc = Some (VDict paths) /\
    reduce_union (List.map snd paths) = Ok S /\
    Py.for_each add_path paths (method_groups S) = Ok ms /\
    cli_commands c = ms ∪ {[ "meta" := meta_group doc ]}.
Proof.
  unfold create_cli_from. intros H.
  do 6 (apply bind_inv_Ok in H as (? & _ & H)).
  apply bind_inv_Ok in H as (paths & Hp & H).
  apply bind_inv_Ok in H as (objs & Ho & H).
  apply bind_inv_Ok in H as (S & HS & H).
  apply bind_inv_Ok in H as (paths' & Hp' & H).
  apply bind_inv_Ok in H as (its & Hi & H).
  apply bind_inv_Ok in H as (ms & Hms & H).
  injection H as <-. rewrite Hp in Hp'. injection Hp' as <-.
  destruct paths as [| | | | |d]; try discriminate.
  injection Ho as <-. injection Hi as <-.
  exists d, S, ms. by apply getitem_Ok in Hp.
Qed.

(** The whole of it: the method groups of a tree that [create_cli] returns. *)
Lemma create_cli_Ok (doc : value) (c : cli) :
  create_cli (Ok doc) = Ok c ->
  exists paths ms,
    field ["paths"] doc = Some (VDict paths) /\
    cli_commands c = ms ∪ {[ "meta" := meta_group doc ]} /\
    grouped (operations paths) ms /\
    Forall (fun item => exists ops, snd item = VDict ops) paths /\
    (forall p m mobj, (p, m, mobj) ∈ operations paths ->
       exists cmd, operation_command p m mobj = Ok cmd) /\
    (forall k, is_Some (ms !! k) <-> exists p mobj, (p, k, mobj) ∈ operations paths).
Proof.
  unfold create_cli. rewrite bind_Ok. intros H.
  apply create_cli_from_Ok in H as (paths & S & ms & Hp & HS & Hms & Hc).
  destruct (outer_loop_grouped _ [] _ _ (grouped_method_groups S) Hms)
    as (Hg & Hall & Hcmds & Hdom).
  exists paths, ms. do 5 (split; [done|]). intros k. split.
  - intros Hk. apply Hdom in Hk. rewrite method_groups_lookup in Hk.
    case_decide as Hin; [|by destruct Hk]. by apply (method_keys_operations _ _ HS).
  - intros Hk. apply Hdom. rewrite method_groups_lookup.
    rewrite decide_True; [by eexists|]. by apply (method_keys_operations _ _ HS).
Qed.

Lemma map_each_Ok {A B : Type} (f : A -> result B) (l : list A) (ys : list B) :
  Py.map_each f l = Ok ys -> Forall2 (fun x y => f x = Ok y) l ys.
Proof.
  revert ys. induction l as [|x l IH]; intros ys H.
  - injection H as <-. constructor.
  - cbn [Py.map_each] in H. apply bind_inv_Ok in H as (y & Hy & H).
    apply bind_inv_Ok in H as (ys' & Hys & [= <-]). constructor; auto.
Qed.

Lemma str_to_type_supported (type_name : value) (t : py_type) :
  str_to_type type_name = Ok t -> supported_type type_name = true.
Proof.
  unfold str_to_type, supported_type.
  repeat destruct (Py.eq_str type_name _); done.
Qed.

Lemma get_Ok (v : value) (k : string) (dflt x : value) :
  Py.get v k dflt = Ok x -> exists d, v = VDict d /\ x = default dflt (Py.assoc k d).
Proof.
  destruct v as [| | | | |d]; try discriminate. cbn [Py.get].
  destruct (Py.assoc k d) eqn:E; intros [= <-]; exists d; by rewrite E.
Qed.

(** What a parameter must have for its option to be declared. *)
Lemma parameter_option_Ok (parameter : value) (o : Click.option_decl) :
  parameter_option parameter = Ok o ->
  exists name schema,
    field ["name"] parameter = Some name /\
    field ["schema"] parameter = Some (VDict schema) /\
    supported_type (default (VStr "string") (Py.assoc "type" schema)) = true /\
    Click.opt_name o = Click.normalise (PyStr.str name) /\
    Click.opt_flag o = "--" ++ PyStr.str name.
Proof.
  unfold parameter_option. intros H.
  apply bind_inv_Ok in H as (name & Hname & H).
  apply bind_inv_Ok in H as (help & _ & H).
  apply bind_inv_Ok in H as (schema & Hschema & H).
  apply bind_inv_Ok in H as (dflt & Hdflt & H).
  apply bind_inv_Ok in H as (required & _ & H).
  apply bind_inv_Ok in H as (schema' & Hschema' & H).
  apply bind_inv_Ok in H as (type_name & Htn & H).
  apply bind_inv_Ok in H as (t & Ht & H).
  rewrite Hschema in Hschema'. injection Hschema' as <-.
  apply get_Ok in Htn as (d & -> & ->).
  apply getitem_Ok in Hname, Hschema. apply str_to_type_supported in Ht.
  exists name, d. do 3 (split; [done|]).
  unfold Click.option in H.
  destruct (negb (Click.help_ok help)); [discriminate|].
  destruct (Click.isidentifier _); [|discriminate].
  by injection H as <-.
Qed.

(** What an operation object must be for its command to be built. *)
Lemma operation_command_Ok (p m : string) (mobj : value) (cmd : command) :
  operation_command p m mobj = Ok cmd ->
  exists d summary description opts,
    mobj = VDict d /\
    default (VStr "") (Py.assoc "summary" d) = VStr summary /\
    default (VStr "") (Py.assoc "description" d) = VStr description /\
    Py.map_each parameter_option (operation_parameters mobj) = Ok opts /\
    cmd = {| cmd_name := p;
             cmd_doc := (summary ++ Py.nl ++ Py.nl) ++ description;
             cmd_params := rev opts;
             cmd_callback :=
               Func m p (default (VList []) (Py.assoc "parameters" d)) |}.
Proof.
  unfold operation_command. intros H.
  apply bind_inv_Ok in H as (s & Hs & H).
  apply bind_inv_Ok in H as (s' & Hs' & H).
  apply bind_inv_Ok in H as (dsc & Hd & H).
  apply bind_inv_Ok in H as (summary & Hsum & H).
  apply bind_inv_Ok in H as (parameters & Hps & H).
  apply get_Ok in Hs as (d & -> & ->).
  apply get_Ok in Hd as (d' & [= <-] & ->).
  apply get_Ok in Hps as (d' & [= <-] & ->).
  destruct (default (VStr "") (Py.assoc "summary" d)) as [| | |x| |] eqn:Ex;
    try discriminate.
  injection Hs' as <-.
  destruct (default (VStr "") (Py.assoc "description" d)) as [| | |y| |] eqn:Ey;
    try discriminate.
  injection Hsum as <-.
  unfold create_command, add_parameters in H.
  apply bind_inv_Ok in H as (opts & Hopts & [= <-]).
  apply bind_inv_Ok in Hopts as (ps & Hiter & Hopts).
  exists d, x, y, opts. do 3 (split; [done|]). split; [|done].
  unfold operation_parameters. cbn [Py.get].
  destruct (Py.assoc "parameters" d); cbn [default from_option id] in Hiter;
    by rewrite Hiter.
Qed.

Lemma create_cli_paths (doc : value) (c : cli) (paths : list (string * value)) :
  create_cli (Ok doc) = Ok c ->
  field ["paths"] doc = Some (VDict paths) ->
  exists ms,
    cli_commands c = ms ∪ {[ "meta" := meta_group doc ]} /\
    grouped (operations paths) ms /\
    Forall (fun item => exists ops, snd item = VDict ops) paths /\
    (forall p m mobj, (p, m, mobj) ∈ operations paths ->
       exists cmd, operation_command p m mobj = Ok cmd) /\
    (forall k, is_Some (ms !! k) <-> exists p mobj, (p, k, mobj) ∈ operations paths).
Proof.
  intros H Hp. apply create_cli_Ok in H as (paths' & ms & Hp' & H).
  rewrite Hp in Hp'. injection Hp' as <-. by exists ms.
Qed.

(** X4.  When [create_cli] returns a tree, every operation of the document
    can be reached in it: the group of the operation's method is there,
    stored under the method, and holds under the operation's path a command
    that [create_command] made for an operation with this path and method. *)
Theorem create_cli_reaches_every_operation
    (doc : value) (c : cli) (paths : list (string * value))
    (p m : string) (mobj : value) :
  create_cli (Ok doc) = Ok c ->
  field ["paths"] doc = Some (VDict paths) ->
  (p, m, mobj) ∈ operations paths ->
  exists g cmd mobj',
    cli_commands c !! m = Some g /\
    grp_name g = m /\
    grp_commands g !! p = Some cmd /\
    (p, m, mobj') ∈ operations paths /\
    operation_command p m mobj' = Ok cmd.
Proof.
  intros H Hp Hin.
  destruct (create_cli_paths _ _ _ H Hp) as (ms & -> & [Hsound Hcomplete] & _).
  destruct (Hcomplete p m mobj Hin) as (g & cmd & Hg & Hcmd).
  destruct (Hsound m g Hg) as (Hname & _ & Hleaf).
  destruct (Hleaf p cmd Hcmd) as (mobj' & Hin' & Hc).
  exists g, cmd, mobj'. split; [|done].
  by apply lookup_union_Some_l.
Qed.

Lemma create_cli_reaches_every_operation_witness :
  exists c,
    create_cli (Ok doc_abc) = Ok c /\
    exists g cmd mobj',
      cli_commands c !! "post" = Some g /\
      grp_name g = "post" /\
      grp_commands g !! "/a" = Some cmd /\
      (("/a", "post", mobj') ∈ operations
          [("/a", VDict [("get", VDict []); ("post", VDict [])]);
           ("/b", VDict [("get", VDict [])])]) /\
      operation_command "/a" "post" mobj' = Ok cmd.
Proof.
  destruct (create_cli (Ok doc_abc)) as [c|e] eqn:E; [|by vm_compute in E].
  exists c. split; [reflexivity|].
  apply (create_cli_reaches_every_operation doc_abc c _ "/a" "post" (VDict []) E);
    [reflexivity|].
  cbn. repeat constructor.
Defined.

(** X5.  When [create_cli] returns a tree, it holds nothing but the
    operations of the document and the [version] command: a command stored
    in group [k] under the name [p] is the [version] command of the [meta]
    group, or the command that [create_command] made for an operation with
    path [p] and method [k]; that command is named [p] and its callback
    requests [k] on [p]. *)
Theorem every_command_is_an_operation_or_version
    (doc : value) (c : cli) (paths : list (string * value))
    (k p : string) (g : group) (cmd : command) :
  create_cli (Ok doc) = Ok c ->
  field ["paths"] doc = Some (VDict paths) ->
  cli_commands c !! k = Some g ->
  grp_commands g !! p = Some cmd ->
  (k = "meta" /\ p = "version" /\ cmd = version_command doc) \/
  (exists mobj parameters,
     (p, k, mobj) ∈ operations paths /\
     operation_command p k mobj = Ok cmd /\
     cmd_name cmd = p /\
     cmd_callback cmd = Func k p parameters).
Proof.
  intros H Hp Hg Hcmd.
  destruct (create_cli_paths _ _ _ H Hp) as (ms & Hc & [Hsound _] & _).
  rewrite Hc in Hg. apply lookup_union_Some_raw in Hg as [Hg|[_ Hg]].
  - right. destruct (Hsound k g Hg) as (_ & _ & Hleaf).
    destruct (Hleaf p cmd Hcmd) as (mobj & Hin & Hop).
    destruct (operation_command_Ok _ _ _ _ Hop) as (d & s & dsc & opts & _ & _ & _ & _ & ->).
    exists mobj. eexists. by repeat split.
  - left. apply lookup_singleton_Some in Hg as [<- <-].
    cbn [meta_group grp_commands] in Hcmd.
    by apply lookup_singleton_Some in Hcmd as [<- <-].
Qed.

Lemma every_command_is_an_operation_or_version_witness :
  exists c g cmd,
    create_cli (Ok doc_abc) = Ok c /\
    cli_commands c !! "get" = Some g /\
    grp_commands g !! "/b" = Some cmd /\
    (("get" = "meta" /\ "/b" = "version" /\ cmd = version_command doc_abc) \/
     (exists mobj parameters,
        (("/b", "get", mobj) ∈ operations
            [("/a", VDict [("get", VDict []); ("post", VDict [])]);
             ("/b", VDict [("get", VDict [])])]) /\
        operation_command "/b" "get" mobj = Ok cmd /\
        cmd_name cmd = "/b" /\
        cmd_callback cmd = Func "get" "/b" parameters)).
Proof.
  destruct (create_cli (Ok doc_abc)) as [c|e] eqn:E; [|by vm_compute in E].
  destruct (cli_commands c !! "get") as [g|] eqn:Eg.
  2:{ vm_compute in E. injection E as <-. vm_compute in Eg. discriminate. }
  destruct (grp_commands g !! "/b") as [cmd|] eqn:Ecmd.
  2:{ vm_compute in E. injection E as <-. vm_compute in Eg. injection Eg as <-.
      vm_compute in Ecmd. discriminate. }
  exists c, g, cmd. split; [reflexivity|]. split; [exact Eg|]. split; [exact Ecmd|].
  by apply (every_command_is_an_operation_or_version doc_abc c _ "get" "/b" g cmd E).
Defined.

(** X6.  When [create_cli] returns a tree, its groups are [meta] and the
    methods of the document's operations, nothing else; every group is
    stored under its own name, and none is empty. *)
Theorem create_cli_groups_are_meta_and_the_methods
    (doc : value) (c : cli) (paths : list (string * value)) :
  create_cli (Ok doc) = Ok c ->
  field ["paths"] doc = Some (VDict paths) ->
  (forall k, is_Some (cli_commands c !! k) <->
             k = "meta" \/ exists p mobj, (p, k, mobj) ∈ operations paths) /\
  (forall k g, cli_commands c !! k = Some g ->
               grp_name g = k /\ exists p cmd, grp_commands g !! p = Some cmd).
Proof.
  intros H Hp.
  destruct (create_cli_paths _ _ _ H Hp)
    as (ms & -> & [Hsound Hcomplete] & _ & _ & Hdom).
  split.
  - intros k. rewrite lookup_union_is_Some, Hdom. split.
    + intros [Hk|Hk]; [by right | left].
      destruct Hk as [g Hg]. by apply lookup_singleton_Some in Hg as [<- _].
    + intros [->|Hk]; [right | by left]. rewrite lookup_singleton_eq. by eexists.
  - intros k g Hg. apply lookup_union_Some_raw in Hg as [Hg|[_ Hg]].
    + destruct (Hsound k g Hg) as (Hname & _ & _). split; [done|].
      destruct (proj1 (Hdom k)) as (p & mobj & Hin); [by eexists|].
      destruct (Hcomplete p k mobj Hin) as (g' & cmd & Hg' & Hcmd).
      rewrite Hg in Hg'. injection Hg' as <-. by exists p, cmd.
    + apply lookup_singleton_Some in Hg as [<- <-]. split; [done|].
      exists "version", (version_command doc).
      cbn [meta_group grp_commands]. by rewrite lookup_singleton_eq.
Qed.

Lemma create_cli_groups_are_meta_and_the_methods_witness :
  exists c,
    create_cli (Ok doc_abc) = Ok c /\
    (forall k, is_Some (cli_commands c !! k) <->
               k = "meta" \/
               exists p mobj,
                 (p, k, mobj) ∈ operations
                   [("/a", VDict [("get", VDict []); ("post", VDict [])]);
                    ("/b", VDict [("get", VDict [])])]) /\
    (forall k g, cli_commands c !! k = Some g ->
                 grp_name g = k /\ exists p cmd, grp_commands g !! p = Some cmd).
Proof.
  destruct (create_cli (Ok doc_abc)) as [c|e] eqn:E; [|by vm_compute in E].
  exists c. split; [reflexivity|].
  by apply (create_cli_groups_are_meta_and_the_methods doc_abc c _ E).
Defined.

(** X7.  [create_cli] builds every command before it returns, so it returns
    a tree only when every parameter of every operation has a name and a
    schema that is a mapping whose type, [string] when it has none, is one of
    the four [str_to_type] knows: one parameter of another type anywhere in
    the document leaves the program without any command. *)
Theorem create_cli_needs_every_parameter_typed
    (doc : value) (c : cli) (paths : list (string * value))
    (p m : string) (mobj parameter : value) :
  create_cli (Ok doc) = Ok c ->
  field ["paths"] doc = Some (VDict paths) ->
  (p, m, mobj) ∈ operations paths ->
  parameter ∈ operation_parameters mobj ->
  exists name type_name,
    field ["name"] parameter = Some name /\
    declared_type parameter = Some type_name /\
    supported_type type_name = true.
Proof.
  intros H Hp Hin Hparam.
  destruct (create_cli_paths _ _ _ H Hp) as (ms & _ & _ & _ & Hcmds & _).
  destruct (Hcmds p m mobj Hin) as [cmd Hcmd].
  destruct (operation_command_Ok _ _ _ _ Hcmd)
    as (d & s & dsc & opts & _ & _ & _ & Hopts & _).
  apply map_each_Ok in Hopts.
  apply list_elem_of_lookup in Hparam as [i Hi].
  destruct (Forall2_lookup_l _ _ _ _ _ Hopts Hi) as (o & _ & Ho).
  apply parameter_option_Ok in Ho as (name & schema & Hname & Hschema & Hty & _).
  exists name, (default (VStr "string") (Py.assoc "type" schema)).
  unfold declared_type. by rewrite Hschema.
Qed.

Lemma create_cli_needs_every_parameter_typed_witness :
  exists c,
    create_cli (Ok doc_items) = Ok c /\
    exists name type_name,
      field ["name"] limit_parameter = Some name /\
      declared_type limit_parameter = Some type_name /\
      supported_type type_name = true.
Proof.
  destruct (create_cli (Ok doc_items)) as [c|e] eqn:E; [|by vm_compute in E].
  exists c. split; [reflexivity|].
  apply (create_cli_needs_every_parameter_typed doc_items c
           [("/items/{id}",
             VDict [("get",
                     VDict [("summary", VStr "Read an item");
                            ("parameters", VList [id_parameter; limit_parameter])])])]
           "/items/{id}" "get"
           (VDict [("summary", VStr "Read an item");
                   ("parameters", VList [id_parameter; limit_parameter])])
           limit_parameter E); [reflexivity | |].
  - cbn. repeat constructor.
  - cbn. repeat constructor.
Defined.

(** X8.  [create_cli] returns a tree only when every member of [paths] is a
    mapping and every member of such a path item is itself a mapping whose
    [summary] and [description], where present, are strings.  A path item
    that carries anything besides its operations, such as a [summary] or a
    list of [parameters] of its own, makes the program fail. *)
Theorem create_cli_needs_operations_only
    (doc : value) (c : cli) (paths : list (string * value))
    (p : string) (item : value) :
  create_cli (Ok doc) = Ok c ->
  field ["paths"] doc = Some (VDict paths) ->
  (p, item) ∈ paths ->
  exists ops,
    item = VDict ops /\
    forall k v, (k, v) ∈ ops ->
      exists d summary description,
        v = VDict d /\
        default (VStr "") (Py.assoc "summary" d) = VStr summary /\
        default (VStr "") (Py.assoc "description" d) = VStr description.
Proof.
  intros H Hp Hin.
  destruct (create_cli_paths _ _ _ H Hp) as (ms & _ & _ & Hall & Hcmds & _).
  rewrite Forall_forall in Hall. destruct (Hall _ Hin) as [ops Hops].
  cbn [snd] in Hops. subst item. exists ops. split; [done|].
  intros k v Hk.
  destruct (Hcmds p k v) as [cmd Hcmd]; [apply elem_of_operations; by exists ops|].
  destruct (operation_command_Ok _ _ _ _ Hcmd)
    as (d & s & dsc & opts & -> & Hs & Hd & _).
  by exists d, s, dsc.
Qed.

Lemma create_cli_needs_operations_only_witness :
  exists c,
    create_cli (Ok doc_abc) = Ok c /\
    exists ops,
      VDict [("get", VDict [])] = VDict ops /\
      forall k v, (k, v) ∈ ops ->
        exists d summary description,
          v = VDict d /\
          default (VStr "") (Py.assoc "summary" d) = VStr summary /\
          default (VStr "") (Py.assoc "description" d) = VStr description.
Proof.
  destruct (create_cli (Ok doc_abc)) as [c|e] eqn:E; [|by vm_compute in E].
  exists c. split; [reflexivity|].
  apply (create_cli_needs_operations_only doc_abc c
           [("/a", VDict [("get", VDict []); ("post", VDict [])]);
            ("/b", VDict [("get", VDict [])])] "/b" _ E); [reflexivity|].
  repeat constructor.
Defined.

(** ** The [version] command *)

(** The body of [version] returns exactly when the document has the three
    fields it reads. *)
Lemma version_Ok_iff (environ : gmap string string) (doc : value) :
  (exists out, version environ doc = Ok out) <->
  (is_Some (field ["info"; "title"] doc) /\
   is_Some (field ["info"; "version"] doc) /\
   is_Some (field ["openapi"] doc)).
Proof.
  rewrite (field_cons "info" ["title"]), (field_cons "info" ["version"]).
  split.
  - intros [out H]. unfold version in H.
    apply bind_inv_Ok in H as (info & Hi & H).
    apply bind_inv_Ok in H as (title & Ht & H).
    apply bind_inv_Ok in H as (info' & Hi' & H).
    apply bind_inv_Ok in H as (project_version & Hv & H).
    apply bind_inv_Ok in H as (openapi_version & Ho & _).
    rewrite Hi in Hi'. injection Hi' as <-.
    apply getitem_Ok in Hi, Ht, Hv, Ho. rewrite Hi, Ho. cbn [mbind option_bind].
    rewrite Ht, Hv. by repeat split.
  - intros ([t Ht] & [v Hv] & [o Ho]).
    destruct (field ["info"] doc) as [info|] eqn:Hi; [|discriminate].
    cbn [mbind option_bind] in Ht, Hv.
    apply getitem_Ok in Hi, Ht, Hv, Ho. unfold version.
    rewrite Hi. cbn [mbind result_bind]. rewrite Ht. cbn [mbind result_bind].
    rewrite Hv. cbn [mbind result_bind]. rewrite Ho. cbn [mbind result_bind].
    by eexists.
Qed.

(** X9.  On a document that has no method named [meta], the command line
    [meta version] runs the body of [version] whenever [create_cli] returns a
    tree, and it prints exactly when [create_cli] returns a tree and the
    document has [info.version] and [openapi]: the command needs a document
    from which every other command can be built, although it reads none of
    [paths] itself. *)
Theorem meta_version_prints_exactly_when_built
    (httpx_request : request -> result response) (environ : gmap string string)
    (doc : value) :
  (forall paths p mobj,
      field ["paths"] doc = Some (VDict paths) ->
      (p, "meta", mobj) ∉ operations paths) ->
  (forall c, create_cli (Ok doc) = Ok c ->
             script httpx_request environ (Ok doc) "meta" "version" ∅
             = Some (version environ doc)) /\
  ((exists out,
       script httpx_request environ (Ok doc) "meta" "version" ∅ = Some (Ok out))
   <->
   ((exists c, create_cli (Ok doc) = Ok c) /\
    is_Some (field ["info"; "version"] doc) /\
    is_Some (field ["openapi"] doc))).
Proof.
  intros Hmeta.
  assert (Hrun : forall c, create_cli (Ok doc) = Ok c ->
                           script httpx_request environ (Ok doc) "meta" "version" ∅
                           = Some (version environ doc)).
  { intros c Hc. unfold script, run. rewrite Hc.
    apply create_cli_Ok in Hc as (paths & ms & Hp & -> & _ & _ & _ & Hdom).
    assert (Hnone : ms !! "meta" = None).
    { apply eq_None_not_Some. intros (p & mobj & Hin)%Hdom.
      by apply (Hmeta paths p mobj Hp). }
    rewrite lookup_union_r by done. rewrite lookup_singleton_eq.
    cbn [meta_group grp_commands]. rewrite lookup_singleton_eq.
    reflexivity. }
  split; [exact Hrun|]. split.
  - intros [out Hout].
    destruct (create_cli (Ok doc)) as [c|e] eqn:Hc.
    + rewrite (Hrun c eq_refl) in Hout. injection Hout as Hout.
      destruct (proj1 (version_Ok_iff environ doc)) as (_ & Hv & Ho);
        [by exists out|].
      split; [by exists c | by split].
    + unfold script in Hout. by rewrite Hc in Hout.
  - intros ([c Hc] & Hv & Ho).
    assert (Ht : is_Some (field ["info"; "title"] doc)).
    { unfold create_cli, create_cli_from in Hc. rewrite bind_Ok in Hc.
      apply bind_inv_Ok in Hc as (info & Hi & Hc).
      apply bind_inv_Ok in Hc as (title & Ht & _).
      apply getitem_Ok in Hi, Ht.
      rewrite (field_cons "info" ["title"]), Hi. cbn [mbind option_bind].
      by rewrite Ht. }
    destruct (proj2 (version_Ok_iff environ doc)) as [out Hout]; [by repeat split|].
    exists out. by rewrite (Hrun c Hc), Hout.
Qed.

Lemma meta_version_prints_exactly_when_built_witness :
  (forall c, create_cli (Ok doc_abc) = Ok c ->
             script (always not_found) ∅ (Ok doc_abc) "meta" "version" ∅
             = Some (version ∅ doc_abc)) /\
  ((exists out,
       script (always not_found) ∅ (Ok doc_abc) "meta" "version" ∅ = Some (Ok out))
   <->
   ((exists c, create_cli (Ok doc_abc) = Ok c) /\
    is_Some (field ["info"; "version"] doc_abc) /\
    is_Some (field ["openapi"] doc_abc))).
Proof.
  apply (meta_version_prints_exactly_when_built (always not_found) ∅ doc_abc).
  intros paths p mobj [= <-] Hin. cbn in Hin.
  repeat (apply elem_of_cons in Hin as [Hin|Hin]; [discriminate|]).
  by apply elem_of_nil in Hin.
Defined.

(** ** From the command line to the operation *)

(** X10.  When [create_cli] returns a tree and the document has one
    operation for the path [p] and the method [m], the program run on the
    command line [m p] with some options does what the command of that
    operation does with these options. *)
Theorem script_runs_the_operation
    (httpx_request : request -> result response) (environ : gmap string string)
    (doc : value) (c : cli) (paths : list (string * value))
    (p m : string) (mobj : value) (given : gmap string value) :
  create_cli (Ok doc) = Ok c ->
  field ["paths"] doc = Some (VDict paths) ->
  (p, m, mobj) ∈ operations paths ->
  (forall mobj', (p, m, mobj') ∈ operations paths -> mobj' = mobj) ->
  exists cmd,
    operation_command p m mobj = Ok cmd /\
    script httpx_request environ (Ok doc) m p given
    = invoke httpx_request environ cmd given.
Proof.
  intros H Hp Hin Hone.
  destruct (create_cli_paths _ _ _ H Hp) as (ms & Hc & [Hsound Hcomplete] & _).
  destruct (Hcomplete p m mobj Hin) as (g & cmd & Hg & Hcmd).
  destruct (Hsound m g Hg) as (_ & _ & Hleaf).
  destruct (Hleaf p cmd Hcmd) as (mobj' & Hin' & Hop).
  rewrite (Hone mobj' Hin') in Hop.
  exists cmd. split; [done|].
  unfold script, run. rewrite H, Hc.
  by rewrite (lookup_union_Some_l _ _ _ _ Hg), Hcmd.
Qed.

Lemma script_runs_the_operation_witness :
  exists c cmd,
    create_cli (Ok doc_items) = Ok c /\
    operation_command "/items/{id}" "get"
      (VDict [("summary", VStr "Read an item");
              ("parameters", VList [id_parameter; limit_parameter])]) = Ok cmd /\
    script (always not_found) ∅ (Ok doc_items) "get" "/items/{id}" {[ "id" := VInt 7 ]}
    = invoke (always not_found) ∅ cmd {[ "id" := VInt 7 ]}.
Proof.
  destruct (create_cli (Ok doc_items)) as [c|e] eqn:E; [|by vm_compute in E].
  exists c.
  destruct (script_runs_the_operation (always not_found) ∅ doc_items c
              [("/items/{id}",
                VDict [("get",
                        VDict [("summary", VStr "Read an item");
                               ("parameters",
                                VList [id_parameter; limit_parameter])])])]
              "/items/{id}" "get"
              (VDict [("summary", VStr "Read an item");
                      ("parameters", VList [id_parameter; limit_parameter])])
              {[ "id" := VInt 7 ]} E) as (cmd & Hcmd & Hrun).
  - reflexivity.
  - cbn. repeat constructor.
  - intros mobj' Hin. cbn in Hin.
    apply list_elem_of_singleton in Hin. by injection Hin as ->.
  - exists cmd. split; [reflexivity|]. split; [exact Hcmd | exact Hrun].
Defined.

(** ** Path parameters click renames *)

Lemma normalise_char_idem (c : ascii) :
  let f := fun c => if Ascii.eqb c "-" then "_"%char else Click.lower_ascii c in
  f (f c) = f c.
Proof. destruct c as [[] [] [] [] [] [] [] []]; reflexivity. Qed.

Lemma normalise_idem (s : string) :
  Click.normalise (Click.normalise s) = Click.normalise s.
Proof.
  induction s as [|c s IH]; [done|]. cbn [Click.normalise].
  rewrite IH. f_equal. apply normalise_char_idem.
Qed.

(** The keywords click binds are the names of the options. *)
Lemma bind_options_keys (params : list Click.option_decl)
    (given kwargs kwargs' : gmap string value) :
  Click.bind_options params given kwargs = Some (Ok kwargs') ->
  forall k, is_Some (kwargs' !! k) ->
    is_Some (kwargs !! k) \/ exists o, o ∈ params /\ Click.opt_name o = k.
Proof.
  revert kwargs. induction params as [|o params IH]; intros kwargs H k Hk.
  - injection H as <-. by left.
  - cbn [Click.bind_options] in H.
    assert (Hstep : forall v,
               Click.bind_options params given (<[Click.opt_name o := v]> kwargs)
               = Some (Ok kwargs') ->
               is_Some (kwargs !! k) \/
               exists o', o' ∈ o :: params /\ Click.opt_name o' = k).
    { intros v Hv. destruct (IH _ Hv k Hk) as [Hin|(o' & Hin & Ho')].
      - destruct (decide (Click.opt_name o = k)) as [Heq|Hne].
        + right. exists o. split; [apply elem_of_cons; by left | done].
        + left. by rewrite lookup_insert_ne in Hin.
      - right. exists o'. split; [apply elem_of_cons; by right | done]. }
    destruct (given !! Click.opt_name o) as [v|]; [by apply (Hstep v)|].
    destruct (Click.unset_value o) as [[v|e]|]; [by apply (Hstep v) | done..].
Qed.

(** X11.  click passes the value of an option under the option's name in
    lower case with [-] turned into [_], while [func] looks path parameters
    up under the name the document gives.  A command with a path parameter
    whose name has an upper-case letter or a hyphen, such as [userId],
    therefore never succeeds, whatever is given on the command line and
    whatever the server would answer. *)
Theorem renamed_path_parameter_never_succeeds
    (httpx_request : request -> result response) (environ : gmap string string)
    (method path documentation : string) (parameters : list value)
    (cmd : command) (n : string) (given : gmap string value) :
  create_command method path documentation (VList parameters) = Ok cmd ->
  n ∈ path_names parameters ->
  Click.normalise n <> n ->
  forall out, invoke httpx_request environ cmd given <> Some (Ok out).
Proof.
  intros Hcmd Hn Hnorm out Hinv.
  unfold create_command, add_parameters in Hcmd.
  apply bind_inv_Ok in Hcmd as (opts & Hopts & [= <-]).
  apply bind_inv_Ok in Hopts as (ps & [= <-] & Hopts).
  apply map_each_Ok in Hopts.
  unfold invoke in Hinv. cbn [cmd_params cmd_callback] in Hinv.
  destruct (Click.bind_options (rev opts) given ∅) as [[kwargs|e]|] eqn:Hbind;
    [|discriminate..].
  injection Hinv as Hrun. cbn [run_callback] in Hrun. unfold func in Hrun.
  apply bind_inv_Ok in Hrun as (req & Hreq & _).
  unfold func_request in Hreq. cbn [Py.iter mbind result_bind] in Hreq.
  apply bind_inv_Ok in Hreq as ([T' kw'] & Hloop & _).
  destruct (loop_ends_inv _ _ _ _ _ Hloop) as (_ & _ & Hbound).
  destruct (bind_options_keys _ _ _ _ Hbind n (Hbound n Hn))
    as [[v Hv]|(o & Ho & Hname)]; [by rewrite lookup_empty in Hv|].
  apply list_elem_of_In, in_rev, list_elem_of_In, list_elem_of_lookup in Ho
    as [i Hi].
  destruct (Forall2_lookup_r _ _ _ _ _ Hopts Hi) as (p & _ & Hp).
  apply parameter_option_Ok in Hp as (name & _ & _ & _ & _ & Hkw & _).
  apply Hnorm. rewrite <- Hname, Hkw. apply normalise_idem.
Qed.

Lemma renamed_path_parameter_never_succeeds_witness :
  exists cmd,
    create_command "get" "/users/{userId}" "" (VList [user_id_parameter]) = Ok cmd /\
    forall out,
      invoke (always not_found) ∅ cmd {[ "userid" := VStr "u1" ]} <> Some (Ok out).
Proof.
  eexists. split; [reflexivity|].
  apply (renamed_path_parameter_never_succeeds (always not_found) ∅
           "get" "/users/{userId}" "" [user_id_parameter] _ "userId").
  - reflexivity.
  - cbn. repeat constructor.
  - discriminate.
Defined.

(** ** The documentation of [main] *)

(** X12.  [create_cli] returns a tree only when [info.title] is a string
    and [info.description] is a string or absent; the documentation of
    [main] is then the title, a line feed and the description, the empty
    string when there is none. *)
Theorem create_cli_documents_main (doc : value) (c : cli) :
  create_cli (Ok doc) = Ok c ->
  exists title description,
    field ["info"; "title"] doc = Some (VStr title) /\
    default (VStr "") (field ["info"; "description"] doc) = VStr description /\
    cli_doc c = (title ++ Py.nl) ++ description.
Proof.
  unfold create_cli, create_cli_from. rewrite bind_Ok. intros H.
  apply bind_inv_Ok in H as (info & Hi & H).
  apply bind_inv_Ok in H as (title & Ht & H).
  apply bind_inv_Ok in H as (t & Hadd & H).
  apply bind_inv_Ok in H as (info' & Hi' & H).
  apply bind_inv_Ok in H as (description & Hd & H).
  apply bind_inv_Ok in H as (s & Hs & H).
  do 6 (apply bind_inv_Ok in H as (? & _ & H)). injection H as <-.
  rewrite Hi in Hi'. injection Hi' as <-.
  apply get_Ok in Hd as (d & -> & ->).
  apply getitem_Ok in Hi.
  rewrite (field_cons "info" ["title"]), (field_cons "info" ["description"]), Hi.
  cbn [mbind option_bind]. apply getitem_Ok in Ht. rewrite Ht.
  destruct title as [| | |title| |]; try discriminate. injection Hadd as <-.
  cbn [field].
  destruct (Py.assoc "description" d) as [dsc|]; cbn [default from_option id] in *;
    [destruct dsc as [| | |dsc| |]; try discriminate|];
    injection Hs as <-; eexists _, _; by repeat split.
Qed.

Lemma create_cli_documents_main_witness :
  exists c title description,
    create_cli (Ok doc_abc) = Ok c /\
    field ["info"; "title"] doc_abc = Some (VStr title) /\
    default (VStr "") (field ["info"; "description"] doc_abc) = VStr description /\
    cli_doc c = (title ++ Py.nl) ++ description.
Proof.
  destruct (create_cli (Ok doc_abc)) as [c|e] eqn:E; [|by vm_compute in E].
  destruct (create_cli_documents_main doc_abc c E) as (title & description & H).
  exists c, title, description. split; [reflexivity | exact H].
Defined.

(** ** A command whose names click leaves alone *)

(** click binds every option it was given. *)
Lemma bind_options_binds (params : list Click.option_decl)
    (given kwargs kwargs' : gmap string value) :
  Click.bind_options params given kwargs = Some (Ok kwargs') ->
  (forall k, is_Some (kwargs !! k) -> is_Some (kwargs' !! k)) /\
  (forall o, o ∈ params -> is_Some (kwargs' !! Click.opt_name o)).
Proof.
  revert kwargs. induction params as [|o params IH]; intros kwargs H.
  - injection H as <-. split; [done|]. intros o Ho. by apply elem_of_nil in Ho.
  - cbn [Click.bind_options] in H.
    assert (Hstep : forall v,
               Click.bind_options params given (<[Click.opt_name o := v]> kwargs)
               = Some (Ok kwargs') ->
               (forall k, is_Some (kwargs !! k) -> is_Some (kwargs' !! k)) /\
               (forall o', o' ∈ o :: params -> is_Some (kwargs' !! Click.opt_name o'))).
    { intros v Hv. destruct (IH _ Hv) as [Hkeep Hbound]. split.
      - intros k Hk. apply Hkeep.
        destruct (decide (Click.opt_name o = k)) as [<-|Hne].
        + rewrite lookup_insert_eq. by eexists.
        + by rewrite lookup_insert_ne.
      - intros o' [->|Ho']%elem_of_cons; [|by apply Hbound].
        apply Hkeep. rewrite lookup_insert_eq. by eexists. }
    destruct (given !! Click.opt_name o) as [v|]; [by apply (Hstep v)|].
    destruct (Click.unset_value o) as [[v|e]|]; [by apply (Hstep v) | done..].
Qed.

(** X13.  A command whose parameters all have a location and whose path
    parameters have pairwise distinct names that click leaves alone (lower
    case, no hyphen) always gets as far as its request: once click has bound
    the options, the loop of [func] cannot fail, the request goes out with
    the method in upper case and without any path parameter among the query
    parameters, and the command's outcome is that of the request. *)
Theorem well_named_command_sends_its_request
    (httpx_request : request -> result response) (environ : gmap string string)
    (method path documentation : string) (parameters : list value)
    (cmd : command) (given kwargs : gmap string value) :
  create_command method path documentation (VList parameters) = Ok cmd ->
  Forall (fun p => spec_ok p = true) parameters ->
  NoDup (path_names parameters) ->
  (forall n, n ∈ path_names parameters -> Click.normalise n = n) ->
  Click.bind_options (cmd_params cmd) given ∅ = Some (Ok kwargs) ->
  exists req,
    func_request method path (VList parameters) kwargs = Ok req /\
    req_method req = Str.upper method /\
    (forall n, n ∈ path_names parameters -> req_params req !! n = None) /\
    (forall k, k ∉ path_names parameters -> req_params req !! k = kwargs !! k) /\
    invoke httpx_request environ cmd given
    = Some (resp ← httpx_request req; Ok (print (text resp))).
Proof.
  intros Hcmd Hok Hnd Hnorm Hbind.
  unfold create_command, add_parameters in Hcmd.
  apply bind_inv_Ok in Hcmd as (opts & Hopts & [= <-]).
  apply bind_inv_Ok in Hopts as (ps & [= <-] & Hopts).
  apply map_each_Ok in Hopts. cbn [cmd_params] in Hbind.
  destruct (bind_options_binds _ _ _ _ Hbind) as [_ Hbound].
  assert (Hkeys : forall n, n ∈ path_names parameters -> is_Some (kwargs !! n)).
  { intros n Hn. pose proof (Hnorm n Hn) as Hfix.
    apply list_elem_of_omap in Hn as (p & Hp & Hname).
    apply list_elem_of_lookup in Hp as [i Hi].
    destruct (Forall2_lookup_l _ _ _ _ _ Hopts Hi) as (o & Ho & Hpo).
    apply parameter_option_Ok in Hpo as (name & _ & Hfield & _ & _ & Hkw & _).
    destruct (is_path p); [|discriminate]. unfold name_of in Hname.
    rewrite Hfield in Hname. destruct name as [| | |s| |]; try discriminate.
    injection Hname as ->. cbn [PyStr.str] in Hkw. rewrite Hfix in Hkw.
    rewrite <- Hkw. apply Hbound.
    apply list_elem_of_In, in_rev. rewrite rev_involutive.
    apply list_elem_of_In. by eapply list_elem_of_lookup_2. }
  destruct (loop_split parameters path kwargs Hok Hnd Hkeys)
    as (T' & kw' & Hloop & Hkw').
  exists {| req_method := Str.upper method; req_url := BASE_URL ++ T';
            req_params := kw' |}.
  assert (Hreq : func_request method path (VList parameters) kwargs
                 = Ok {| req_method := Str.upper method; req_url := BASE_URL ++ T';
                         req_params := kw' |}).
  { unfold func_request. cbn [Py.iter mbind result_bind]. by rewrite Hloop. }
  split; [done|]. split; [done|]. cbn [req_params]. split; [|split].
  - intros n Hn. by rewrite Hkw', decide_True.
  - intros k Hk. by rewrite Hkw', decide_False.
  - unfold invoke. cbn [cmd_params cmd_callback]. rewrite Hbind.
    cbn [run_callback]. unfold func. by rewrite Hreq.
Qed.

Lemma well_named_command_sends_its_request_witness :
  exists cmd req,
    create_command "get" "/items/{id}" "" (VList [id_parameter; limit_parameter])
    = Ok cmd /\
    func_request "get" "/items/{id}" (VList [id_parameter; limit_parameter])
      {[ "limit" := VInt 10; "id" := VInt 7 ]} = Ok req /\
    req_method req = Str.upper "get" /\
    (forall n, n ∈ path_names [id_parameter; limit_parameter] ->
               req_params req !! n = None) /\
    (forall k, k ∉ path_names [id_parameter; limit_parameter] ->
               req_params req !! k
               = ({[ "limit" := VInt 10; "id" := VInt 7 ]} : gmap string value) !! k) /\
    invoke (always not_found) ∅ cmd {[ "id" := VInt 7 ]}
    = Some (resp ← always not_found req; Ok (print (text resp))).
Proof.
  eexists.
  destruct (well_named_command_sends_its_request (always not_found) ∅
              "get" "/items/{id}" "" [id_parameter; limit_parameter] _
              {[ "id" := VInt 7 ]} {[ "limit" := VInt 10; "id" := VInt 7 ]}
              eq_refl) as (req & H).
  - repeat constructor.
  - cbn. apply NoDup_singleton.
  - intros n Hn. cbn in Hn. apply list_elem_of_singleton in Hn. by subst n.
  - vm_compute. reflexivity.
  - exists req. split; [reflexivity | exact H].
Defined.

(** * The Bookstore service *)

Lemma serve_keeps (c : Bookstore.call) (st : Bookstore.store) :
  (forall n a, Bookstore.authors st !! n = Some a ->
               Bookstore.authors (Bookstore.serve c st) !! n = Some a) /\
  (forall n b, Bookstore.books st !! n = Some b ->
               Bookstore.books (Bookstore.serve c st) !! n = Some b).
Proof.
  destruct c as [|author force| | | |book force| |]; cbn [Bookstore.serve];
    try (split; intros; assumption).
  - unfold Bookstore.create_author.
    destruct (Bookstore.authors st !! Bookstore.author_name author) eqn:E;
      cbn [snd Bookstore.authors Bookstore.books]; split; try done.
    intros n a Hn. rewrite lookup_insert_ne; [done | congruence].
  - unfold Bookstore.get_author. destruct (Bookstore.authors st !! name); by split.
  - unfold Bookstore.create_book.
    destruct (Bookstore.books st !! Bookstore.book_name book) eqn:E;
      cbn [snd Bookstore.authors Bookstore.books]; split; try done.
    intros n b Hn. rewrite lookup_insert_ne; [done | congruence].
  - unfold Bookstore.get_book. destruct (Bookstore.books st !! name); by split.
Qed.

Lemma serve_all_keeps (calls : list Bookstore.call) (st : Bookstore.store) :
  (forall n a, Bookstore.authors st !! n = Some a ->
               Bookstore.authors (Bookstore.serve_all calls st) !! n = Some a) /\
  (forall n b, Bookstore.books st !! n = Some b ->
               Bookstore.books (Bookstore.serve_all calls st) !! n = Some b).
Proof.
  revert st. induction calls as [|c calls IH]; intros st; [by split|].
  cbn [Bookstore.serve_all foldl].
  destruct (serve_keeps c st) as [Ha Hb].
  destruct (IH (Bookstore.serve c st)) as [Ha' Hb'].
  split; intros; [apply Ha', Ha | apply Hb', Hb]; assumption.
Qed.

(** X14.  The store never forgets and never changes an entry: whatever
    handlers are called afterwards, in whatever order and with whatever
    arguments, an author that is in the store stays there with the same
    metadata.  [delete_author] removes nothing, and [create_author] replaces
    nothing, with [force] or without. *)
Theorem authors_are_never_removed_or_changed
    (calls : list Bookstore.call) (st : Bookstore.store)
    (name : string) (author : Bookstore.Author) :
  Bookstore.authors st !! name = Some author ->
  Bookstore.authors (Bookstore.serve_all calls st) !! name = Some author /\
  fst (Bookstore.get_author name (Bookstore.serve_all calls st))
  = Bookstore.Return (Bookstore.author_metadata author).
Proof.
  intros H. destruct (serve_all_keeps calls st) as [Ha _].
  pose proof (Ha name author H) as H'. split; [done|].
  unfold Bookstore.get_author. by rewrite H'.
Qed.

Lemma authors_are_never_removed_or_changed_witness :
  Bookstore.authors
    (Bookstore.serve_all
       [Bookstore.DeleteAuthor "Neil Gaiman";
        Bookstore.CreateAuthor
          {| Bookstore.author_name := "Neil Gaiman";
             Bookstore.author_metadata := "Unknown" |} true]
       Bookstore.initial) !! "Neil Gaiman"
  = Some {| Bookstore.author_name := "Neil Gaiman";
            Bookstore.author_metadata := "Born 10 November 1960" |} /\
  fst (Bookstore.get_author "Neil Gaiman"
         (Bookstore.serve_all
            [Bookstore.DeleteAuthor "Neil Gaiman";
             Bookstore.CreateAuthor
               {| Bookstore.author_name := "Neil Gaiman";
                  Bookstore.author_metadata := "Unknown" |} true]
            Bookstore.initial))
  = Bookstore.Return "Born 10 November 1960".
Proof.
  apply (authors_are_never_removed_or_changed
           [Bookstore.DeleteAuthor "Neil Gaiman";
            Bookstore.CreateAuthor
              {| Bookstore.author_name := "Neil Gaiman";
                 Bookstore.author_metadata := "Unknown" |} true]
           Bookstore.initial "Neil Gaiman"
           {| Bookstore.author_name := "Neil Gaiman";
              Bookstore.author_metadata := "Born 10 November 1960" |}).
  vm_compute. reflexivity.
Defined.

(** X15.  A book that is in the store stays there with the same authors,
    whatever handlers are called afterwards: [delete_book] removes nothing
    and [create_book] replaces nothing. *)
Theorem books_are_never_removed_or_changed
    (calls : list Bookstore.call) (st : Bookstore.store)
    (name : string) (book : Bookstore.Book) :
  Bookstore.books st !! name = Some book ->
  Bookstore.books (Bookstore.serve_all calls st) !! name = Some book /\
  fst (Bookstore.get_book name (Bookstore.serve_all calls st))
  = Bookstore.Return (Bookstore.book_authors book).
Proof.
  intros H. destruct (serve_all_keeps calls st) as [_ Hb].
  pose proof (Hb name book H) as H'. split; [done|].
  unfold Bookstore.get_book. by rewrite H'.
Qed.

Lemma books_are_never_removed_or_changed_witness :
  Bookstore.books
    (Bookstore.serve_all [Bookstore.DeleteBook "Hamlet"] Bookstore.initial)
    !! "Hamlet"
  = Some {| Bookstore.book_authors := {[ "William Shakespeare" ]};
            Bookstore.book_name := "Hamlet" |} /\
  fst (Bookstore.get_book "Hamlet"
         (Bookstore.serve_all [Bookstore.DeleteBook "Hamlet"] Bookstore.initial))
  = Bookstore.Return {[ "William Shakespeare" ]}.
Proof.
  destruct (books_are_never_removed_or_changed [Bookstore.DeleteBook "Hamlet"]
              Bookstore.initial "Hamlet"
              {| Bookstore.book_authors := {[ "William Shakespeare" ]};
                 Bookstore.book_name := "Hamlet" |}) as [Hkept Hread].
  - vm_compute. reflexivity.
  - split; [exact Hkept | exact Hread].
Defined.

(** X16.  Creating an author who is not in the store answers [OK]; the
    author is then listed by [get_authors] with the others, [get_author]
    returns the metadata given, and a second creation under the same name
    is refused with status 409 and leaves the store as it is, with [force]
    or without. *)
Theorem create_author_then_get_author
    (author again : Bookstore.Author) (force force' : bool) (st : Bookstore.store) :
  Bookstore.authors st !! Bookstore.author_name author = None ->
  Bookstore.author_name again = Bookstore.author_name author ->
  exists st',
    Bookstore.create_author author force st = (Bookstore.Return "OK", st') /\
    fst (Bookstore.get_author (Bookstore.author_name author) st')
    = Bookstore.Return (Bookstore.author_metadata author) /\
    fst (Bookstore.get_authors st')
    = Bookstore.Return
        ({[ Bookstore.author_name author ]} ∪ dom (Bookstore.authors st)) /\
    Bookstore.books st' = Bookstore.books st /\
    Bookstore.create_author again force' st'
    = (Bookstore.Fail (Bookstore.HTTPException 409 "Author already exists"), st').
Proof.
  intros Hnew Hsame. unfold Bookstore.create_author at 1. rewrite Hnew.
  eexists. split; [reflexivity|].
  unfold Bookstore.get_author, Bookstore.get_authors, Bookstore.create_author.
  cbn [Bookstore.authors Bookstore.books fst].
  rewrite Hsame, lookup_insert_eq, dom_insert_L. by repeat split.
Qed.

Lemma create_author_then_get_author_witness :
  exists st',
    Bookstore.create_author
      {| Bookstore.author_name := "Ursula K. Le Guin";
         Bookstore.author_metadata := "Born 21 October 1929" |} false
      Bookstore.initial
    = (Bookstore.Return "OK", st') /\
    fst (Bookstore.get_author "Ursula K. Le Guin" st')
    = Bookstore.Return "Born 21 October 1929" /\
    fst (Bookstore.get_authors st')
    = Bookstore.Return
        ({[ "Ursula K. Le Guin" ]} ∪ dom (Bookstore.authors Bookstore.initial)) /\
    Bookstore.books st' = Bookstore.books Bookstore.initial /\
    Bookstore.create_author
      {| Bookstore.author_name := "Ursula K. Le Guin";
         Bookstore.author_metadata := "Other" |} true st'
    = (Bookstore.Fail (Bookstore.HTTPException 409 "Author already exists"), st').
Proof.
  apply (create_author_then_get_author
           {| Bookstore.author_name := "Ursula K. Le Guin";
              Bookstore.author_metadata := "Born 21 October 1929" |}
           {| Bookstore.author_name := "Ursula K. Le Guin";
              Bookstore.author_metadata := "Other" |}
           false true Bookstore.initial).
  - vm_compute. reflexivity.
  - reflexivity.
Defined.

Lemma occurs_empty (s : string) : Str.occurs "" s = true.
Proof. by destruct s. Qed.

Lemma elem_of_values {A : Type} (m : gmap string A) (x : A) :
  x ∈ (map_to_list m).*2 <-> exists k, m !! k = Some x.
Proof.
  rewrite list_elem_of_fmap. split.
  - intros ([k y] & -> & Hin). exists k. by apply elem_of_map_to_list.
  - intros [k Hk]. exists (k, x). split; [done|]. by apply elem_of_map_to_list.
Qed.

(** X17.  [get_books] returns the names of the books in the store whose
    name contains [q], when [q] is given, and whose authors include all of
    [authors]; it leaves the store as it is.  The two tests [if q:] and
    [if authors:] change nothing in that: the empty string occurs in every
    name and the empty set is included in every set. *)
Theorem get_books_lists_the_matching_books
    (q : Datatypes.option string) (authors : gset string) (st : Bookstore.store) :
  exists names,
    Bookstore.get_books q authors st = (Bookstore.Return names, st) /\
    forall n, n ∈ names <->
      exists k book,
        Bookstore.books st !! k = Some book /\
        Bookstore.book_name book = n /\
        (forall s, q = Some s -> Str.occurs s n = true) /\
        authors ⊆ Bookstore.book_authors book.
Proof.
  unfold Bookstore.get_books. eexists. split; [reflexivity|].
  intros n. rewrite elem_of_list_to_set, list_elem_of_fmap.
  assert (Hq : forall book,
             book ∈ match q with
                    | Some s =>
                        if String.eqb s ""
                        then (map_to_list (Bookstore.books st)).*2
                        else filter
                               (fun book =>
                                  Str.occurs s (Bookstore.book_name book) = true)
                               (map_to_list (Bookstore.books st)).*2
                    | None => (map_to_list (Bookstore.books st)).*2
                    end
             <-> (exists k, Bookstore.books st !! k = Some book) /\
                 forall s, q = Some s ->
                           Str.occurs s (Bookstore.book_name book) = true).
  { intros book. destruct q as [s|].
    - destruct (String.eqb_spec s "") as [->|Hs].
      + rewrite elem_of_values. split; [|tauto].
        intros Hk. split; [done|]. intros s [= <-]. apply occurs_empty.
      + rewrite list_elem_of_filter, elem_of_values. split.
        * intros [Ho Hk]. split; [done|]. by intros s' [= <-].
        * intros [Hk Ho]. split; [by apply Ho | done].
    - rewrite elem_of_values. split; [|tauto]. intros Hk. by split. }
  split.
  - intros (book & -> & Hin). case_decide as HA.
    + apply Hq in Hin as [[k Hk] Ho]. exists k, book. repeat split; try done.
      rewrite HA. apply empty_subseteq.
    + apply list_elem_of_filter in Hin as [Hsub Hin].
      apply Hq in Hin as [[k Hk] Ho]. by exists k, book.
  - intros (k & book & Hk & <- & Ho & Hsub). exists book. split; [done|].
    case_decide as HA.
    + apply Hq. split; [by exists k | done].
    + apply list_elem_of_filter. split; [done|]. apply Hq. split; [by exists k | done].
Qed.

(** Every author and every book is stored under its own name. *)
Lemma serve_all_named (calls : list Bookstore.call) (st : Bookstore.store) :
  map_Forall (fun k a => Bookstore.author_name a = k) (Bookstore.authors st) ->
  map_Forall (fun k b => Bookstore.book_name b = k) (Bookstore.books st) ->
  map_Forall (fun k a => Bookstore.author_name a = k)
    (Bookstore.authors (Bookstore.serve_all calls st)) /\
  map_Forall (fun k b => Bookstore.book_name b = k)
    (Bookstore.books (Bookstore.serve_all calls st)).
Proof.
  revert st. induction calls as [|c calls IH]; intros st Ha Hb; [by split|].
  cbn [Bookstore.serve_all foldl]. apply IH.
  - destruct c as [|author force| | | |book force| |]; cbn [Bookstore.serve];
      try assumption.
    + unfold Bookstore.create_author.
      destruct (Bookstore.authors st !! Bookstore.author_name author);
        cbn [snd Bookstore.authors]; [done|]. by apply map_Forall_insert_2.
    + unfold Bookstore.get_author. by destruct (Bookstore.authors st !! name).
    + unfold Bookstore.create_book.
      by destruct (Bookstore.books st !! Bookstore.book_name book).
    + unfold Bookstore.get_book. by destruct (Bookstore.books st !! name).
  - destruct c as [|author force| | | |book force| |]; cbn [Bookstore.serve];
      try assumption.
    + unfold Bookstore.create_author.
      by destruct (Bookstore.authors st !! Bookstore.author_name author).
    + unfold Bookstore.get_author. by destruct (Bookstore.authors st !! name).
    + unfold Bookstore.create_book.
      destruct (Bookstore.books st !! Bookstore.book_name book);
        cbn [snd Bookstore.books]; [done|]. by apply map_Forall_insert_2.
    + unfold Bookstore.get_book. by destruct (Bookstore.books st !! name).
Qed.

Lemma initial_named :
  map_Forall (fun k a => Bookstore.author_name a = k)
    (Bookstore.authors Bookstore.initial) /\
  map_Forall (fun k b => Bookstore.book_name b = k)
    (Bookstore.books Bookstore.initial).
Proof.
  unfold Bookstore.initial, Bookstore.dummy_authors, Bookstore.dummy_books.
  cbn [foldl Bookstore.authors Bookstore.books].
  split; repeat (apply map_Forall_insert_2; [reflexivity|]); apply map_Forall_empty.
Qed.

(** X18.  In every store the service can reach from its initial one, the
    listing and the lookup of books agree: [get_books] without a filter
    lists a name exactly when [get_book] answers for that name. *)
Theorem get_books_and_get_book_agree (calls : list Bookstore.call) (n : string) :
  exists names,
    fst (Bookstore.get_books None ∅ (Bookstore.serve_all calls Bookstore.initial))
    = Bookstore.Return names /\
    (n ∈ names <->
     exists book_authors,
       fst (Bookstore.get_book n (Bookstore.serve_all calls Bookstore.initial))
       = Bookstore.Return book_authors).
Proof.
  destruct initial_named as [Ha Hb].
  destruct (serve_all_named calls _ Ha Hb) as [_ Hnamed].
  unfold Bookstore.get_books, Bookstore.get_book.
  rewrite decide_True by done. cbn [fst].
  eexists. split; [reflexivity|].
  rewrite elem_of_list_to_set, list_elem_of_fmap. split.
  - intros (book & -> & [k Hk]%elem_of_values).
    rewrite (Hnamed k book Hk), Hk. by eexists.
  - intros [A HA].
    destruct (Bookstore.books (Bookstore.serve_all calls Bookstore.initial) !! n)
      as [book|] eqn:Hk; [|discriminate].
    exists book. split; [by rewrite (Hnamed n book Hk)|].
    apply elem_of_values. by exists n.
Qed.
